(** * Shallow embedding of the ensemble orchestrator of
    document-intelligence-pipeline ([src/orchestrator.py]) and of
    [flatten_dict] ([src/export.py]).

    Python numbers ([int], [float], and [bool], which is a subclass of [int])
    are modelled as exact rationals [Q]; Python [str] as [string]; a Python
    [dict] as an association list in insertion order; a raised exception as
    [None] in an [option]. *)

From Stdlib Require Import Ascii String List Bool Arith Lia ZArith QArith Lqa.
Import ListNotations.
Open Scope string_scope.
Open Scope list_scope.

(** ** [collections.Counter] and [Counter.most_common(1)] *)
Section Counter.
Variable A : Type.
Variable eqb : A -> A -> bool.

(** One step of [Counter(iterable)]: an existing key (compared with [==])
    keeps its position and its count grows; a new key is appended with
    count 1 (dicts keep insertion order). *)
Fixpoint counter_add (c : list (A * nat)) (a : A) : list (A * nat) :=
  match c with
  | [] => [(a, 1%nat)]
  | (b, n) :: c' => if eqb b a then (b, S n) :: c' else (b, n) :: counter_add c' a
  end.

Definition counter (l : list A) : list (A * nat) := fold_left counter_add l [].

(** [max(items, key=itemgetter(1))]: the running best is replaced only by a
    strictly larger count, so the first maximal item wins. *)
Fixpoint max_first (best : A * nat) (c : list (A * nat)) : A * nat :=
  match c with
  | [] => best
  | x :: c' => if Nat.ltb (snd best) (snd x) then max_first x c' else max_first best c'
  end.

(** [Counter(l).most_common(1)[0][0]]; [None] stands for the [IndexError]
    of an empty counter. *)
Definition most_common1 (l : list A) : option A :=
  match counter l with
  | [] => None
  | x :: c' => Some (fst (max_first x c'))
  end.

(** Number of elements of [l] equal to [a]. *)
Fixpoint cnt (a : A) (l : list A) : nat :=
  match l with
  | [] => 0%nat
  | b :: l' => if eqb a b then S (cnt a l') else cnt a l'
  end.
(** The keys of [counter l] in insertion order (a proof device). *)
Definition keys_step (ks : list A) (a : A) : list A :=
  if existsb (eqb a) ks then ks else ks ++ [a].

Definition keys_of (l : list A) : list A := fold_left keys_step l [].
End Counter.

Arguments counter_add {A} eqb c a.
Arguments counter {A} eqb l.
Arguments max_first {A} best c.
Arguments most_common1 {A} eqb l.
Arguments cnt {A} eqb a l.
Arguments keys_step {A} eqb ks a.
Arguments keys_of {A} eqb l.

(** ** Classification votes and [Orchestrator.classify_ensemble] *)

(** [ClassificationResult]: one provider's successful vote. *)
Record ClassificationResult := {
  provider : string;
  doc_type : string;
  confidence : Q
}.

Fixpoint Qsum (l : list Q) : Q :=
  match l with
  | [] => 0
  | q :: l' => q + Qsum l'
  end.

(** [sum(xs) / len(xs)] *)
Definition py_mean (xs : list Q) : Q := Qsum xs / inject_Z (Z.of_nat (length xs)).

(** Lines 368-381 of [classify_ensemble], from the collected [results] on:
    returns [(most_common_type, avg_confidence, providers_used)]. *)
Definition classify_ensemble (results : list ClassificationResult)
  : string * Q * list string :=
  match results with
  | [] => ("unknown", 0, [])
  | _ =>
    let providers_used := map provider results in
    let doc_types := map doc_type results in
    let confidences := map confidence results in
    let most_common_type :=
      match most_common1 String.eqb doc_types with
      | Some t => t
      | None => "unknown" (* unreachable: [doc_types] is non-empty *)
      end in
    (most_common_type, py_mean confidences, providers_used)
  end.

Example classify_ensemble_ex :
  classify_ensemble
    [ {| provider := "openai"; doc_type := "invoice"; confidence := 9#10 |};
      {| provider := "gemini"; doc_type := "email"; confidence := 5#10 |};
      {| provider := "ollama"; doc_type := "invoice"; confidence := 7#10 |} ]
  = ("invoice", ((9#10) + ((5#10) + ((7#10) + 0))) / inject_Z 3, ["openai"; "gemini"; "ollama"]).
Proof. reflexivity. Qed.

(** ** JSON values as returned by [json.loads] *)
#[warnings="-register-all"]
Inductive value : Type :=
| VNone
| VBool (b : bool)
| VInt (z : Z)
| VFloat (q : Q)
| VStr (s : string)
| VList (l : list value)
| VDict (d : list (string * value)).

(** A Python [dict] with string keys, in insertion order. *)
Definition dict := list (string * value).

(** Induction over nested JSON values. *)
Section ValueInd.
Variable P : value -> Prop.
Hypothesis HNone : P VNone.
Hypothesis HBool : forall b, P (VBool b).
Hypothesis HInt : forall z, P (VInt z).
Hypothesis HFloat : forall q, P (VFloat q).
Hypothesis HStr : forall s, P (VStr s).
Hypothesis HList : forall l, Forall P l -> P (VList l).
Hypothesis HDict : forall d : dict, Forall (fun kv => P (snd kv)) d -> P (VDict d).

Fixpoint value_ind' (v : value) : P v :=
  match v with
  | VNone => HNone
  | VBool b => HBool b
  | VInt z => HInt z
  | VFloat q => HFloat q
  | VStr s => HStr s
  | VList l =>
    HList l ((fix go (l : list value) : Forall P l :=
                match l with
                | [] => Forall_nil P
                | x :: l' => Forall_cons x (value_ind' x) (go l')
                end) l)
  | VDict d =>
    HDict d ((fix go (d : list (string * value)) : Forall (fun kv => P (snd kv)) d :=
                match d with
                | [] => Forall_nil _
                | (k, x) :: d' => Forall_cons (k, x) (value_ind' x) (go d')
                end) d)
  end.
End ValueInd.

Fixpoint dict_lookup (d : dict) (k : string) : option value :=
  match d with
  | [] => None
  | (k', v) :: d' => if String.eqb k' k then Some v else dict_lookup d' k
  end.

(** [d.get(k)] *)
Definition dict_get (d : dict) (k : string) : value :=
  match dict_lookup d k with Some v => v | None => VNone end.

(** [d.get(k, default)] *)
Definition dict_get_default (d : dict) (k : string) (default : value) : value :=
  match dict_lookup d k with Some v => v | None => default end.

Definition dict_keys (d : dict) : list string := map fst d.

(** [isinstance(v, (int, float))]: [bool] is a subclass of [int]. *)
Definition py_num (v : value) : option Q :=
  match v with
  | VBool b => Some (if b then 1 else 0)
  | VInt z => Some (inject_Z z)
  | VFloat q => Some q
  | _ => None
  end.

Definition is_num (v : value) : bool :=
  match py_num v with Some _ => true | None => false end.

(** Lists and dicts are unhashable: putting one in a [set] or a [Counter]
    raises [TypeError]. *)
Definition hashable (v : value) : bool :=
  match v with VList _ | VDict _ => false | _ => true end.

(** [==] on hashable values: numbers compare by value across [bool], [int]
    and [float]. *)
Definition py_eqb (a b : value) : bool :=
  match py_num a, py_num b with
  | Some x, Some y => Qeq_bool x y
  | _, _ =>
    match a, b with
    | VNone, VNone => true
    | VStr s, VStr t => String.eqb s t
    | _, _ => false
    end
  end.

(** Deduplication keeping first occurrences.  Used for [set(...)]: the
    iteration order of a Python set is not modelled, first-occurrence order
    stands for it. *)
Fixpoint dedup_from {A} (eqb : A -> A -> bool) (seen : list A) (l : list A) : list A :=
  match l with
  | [] => []
  | a :: l' =>
    if existsb (eqb a) seen then dedup_from eqb seen l'
    else a :: dedup_from eqb (a :: seen) l'
  end.

Definition dedup {A} (eqb : A -> A -> bool) (l : list A) : list A := dedup_from eqb [] l.

(** [sum(values)]: starts from [0] and raises [TypeError] at the first
    non-number. *)
Fixpoint py_sum (vs : list value) : option Q :=
  match vs with
  | [] => Some 0
  | v :: vs' =>
    match py_num v, py_sum vs' with
    | Some q, Some s => Some (q + s)
    | _, _ => None
    end
  end.

Fixpoint map_opt {A B} (f : A -> option B) (l : list A) : option (list B) :=
  match l with
  | [] => Some []
  | a :: l' =>
    match f a, map_opt f l' with
    | Some b, Some bs => Some (b :: bs)
    | _, _ => None
    end
  end.

(** Lines 84-96 of [FieldMerger.merge_extractions]: dispatch on the shape
    of the first non-null value [sample]. *)
Definition merge_values (values : list value) : option value :=
  match values with
  | [] => Some VNone
  | sample :: _ =>
    if is_num sample then
      match py_sum values with
      | Some s => Some (VFloat (s / inject_Z (Z.of_nat (length values))))
      | None => None
      end
    else
      match sample with
      | VList _ =>
        let all_items :=
          flat_map (fun v => match v with VList l => l | _ => [] end) values in
        if forallb hashable all_items then Some (VList (dedup py_eqb all_items))
        else None
      | VStr _ =>
        if forallb hashable values then most_common1 py_eqb values else None
      | _ => Some sample
      end
  end.

(** Lines 79-96 for one key. *)
Definition merge_field (results : list dict) (key : string) : option value :=
  let values :=
    filter (fun v => match v with VNone => false | _ => true end)
      (map (fun r => dict_get r key) results) in
  match values with
  | [] => Some VNone
  | _ => merge_values values
  end.

Definition all_keys (results : list dict) : list string :=
  dedup String.eqb (flat_map dict_keys results).

(** [FieldMerger.merge_extractions]; [None] is a raised exception. *)
Definition merge_extractions (results : list dict) : option dict :=
  match results with
  | [] => Some []
  | [r] => Some r
  | _ => map_opt (fun k => option_map (pair k) (merge_field results k)) (all_keys results)
  end.

(** [ExtractionResult] *)
Record ExtractionResult := {
  ex_provider : string;
  fields : dict
}.

(** Lines 392-403 of [Orchestrator.ensemble_extract]. *)
Definition ensemble_extract (results : list ExtractionResult)
  : option (dict * list string) :=
  match results with
  | [] => Some ([], [])
  | _ =>
    let providers_used := map ex_provider results in
    let field_results := map fields results in
    match merge_extractions field_results with
    | Some merged => Some (merged, providers_used)
    | None => None
    end
  end.

(** ** Fan-out: the graph nodes and one round *)

(** Outcome of [LLMClients.classify] for one provider: [None] when it raised. *)
Definition classify_outcome := option (string * Q).

(** Outcome of [LLMClients.extract] for one provider: [None] when it raised. *)
Definition extract_outcome := option dict.

(** [classify_openai] / [classify_gemini] / [classify_ollama]: the
    [try/except Exception] turns a raised call into no vote. *)
Definition classify_node (p : string) (o : classify_outcome) : list ClassificationResult :=
  match o with
  | Some (t, c) => [ {| provider := p; doc_type := t; confidence := c |} ]
  | None => []
  end.

(** [extract_openai] / [extract_gemini] / [extract_ollama]: an empty field
    map is dropped like a failure. *)
Definition extract_node (p : string) (o : extract_outcome) : list ExtractionResult :=
  match o with
  | Some f =>
    match f with
    | [] => []
    | _ => [ {| ex_provider := p; fields := f |} ]
    end
  | None => []
  end.

(** One round: the routers send the state to every available provider's
    node; [collected] lists each provider with its call's outcome in the
    order LangGraph's [operator.add] reducer collects them. *)
Definition classification_round (collected : list (string * classify_outcome))
  : string * Q * list string :=
  classify_ensemble (flat_map (fun '(p, o) => classify_node p o) collected).

(** The extraction round in the same way.  [ExtractionState] (lines 52-55)
    declares no [results] key; the round is modelled as if the extraction
    graph collected the nodes' [results] like the classification graph. *)
Definition extraction_round (collected : list (string * extract_outcome))
  : option (dict * list string) :=
  ensemble_extract (flat_map (fun '(p, o) => extract_node p o) collected).

(** Spec-side views of a round: the votes of the providers whose call
    returned, and those providers. *)
Definition call_ok {B} (po : string * option B) : bool :=
  match snd po with Some _ => true | None => false end.

Definition ok_votes (collected : list (string * classify_outcome)) : list ClassificationResult :=
  map (fun po => match po with
                 | (p, Some (t, c)) => {| provider := p; doc_type := t; confidence := c |}
                 | (p, None) => {| provider := p; doc_type := ""; confidence := 0 |}
                 end)
      (filter call_ok collected).

Definition ok_providers {B} (collected : list (string * option B)) : list string :=
  map fst (filter call_ok collected).

Definition failed_count {B} (collected : list (string * option B)) : nat :=
  length (filter (fun po => negb (call_ok po)) collected).

(** [float(n)] for a Python int [n]: exact up to 2^53 in magnitude,
    otherwise rounded to 53 significant bits, ties to even; [None] for the
    [OverflowError] raised when the rounded magnitude reaches 2^1024. *)
Definition float_of_int (z : Z) : option Q :=
  let a := Z.abs z in
  if (a <? 2 ^ 53)%Z then Some (inject_Z z)
  else
    let sh := (Z.log2 a - 52)%Z in
    let q := Z.shiftr a sh in
    let r := (a - Z.shiftl q sh)%Z in
    let half := Z.shiftl 1 (sh - 1) in
    let m := if (half <? r)%Z then (q + 1)%Z
             else if (r <? half)%Z then q
             else if Z.odd q then (q + 1)%Z else q in
    let v := (m * 2 ^ sh)%Z in
    if (2 ^ 1024 <=? v)%Z then None else Some (inject_Z (Z.sgn z * v)).

Example float_of_int_ex :
  float_of_int (2 ^ 53 + 1) = Some (inject_Z (2 ^ 53)) /\
  float_of_int (2 ^ 53 + 3) = Some (inject_Z (2 ^ 53 + 4)) /\
  float_of_int (2 ^ 1024 - 2 ^ 970 - 1) = Some (inject_Z (2 ^ 1024 - 2 ^ 971)) /\
  float_of_int (2 ^ 1024 - 2 ^ 970) = None.
Proof. vm_compute. repeat split. Qed.

(** ** Parsing of one classification response ([LLMClients.classify]) *)
Section ClassifyParse.
(** [float(s)] on a string: [None] when it raises [ValueError]. *)
Variable parse_float_str : string -> option Q.


End ClassifyParse.

(** ** [flatten_dict] ([src/export.py]) *)

(** [dict(items)]: a repeated key keeps its first position and takes the
    later value. *)
Fixpoint dict_setitem (d : dict) (k : string) (v : value) : dict :=
  match d with
  | [] => [(k, v)]
  | (k', v') :: d' =>
    if String.eqb k' k then (k', v) :: d' else (k', v') :: dict_setitem d' k v
  end.

Definition dict_of_items (items : list (string * value)) : dict :=
  fold_left (fun d '(k, v) => dict_setitem d k v) items [].

(** [f"{parent_key}{sep}{k}" if parent_key else k] *)
Definition join_key (parent_key sep k : string) : string :=
  if String.eqb parent_key "" then k else parent_key ++ sep ++ k.

Section Flatten.
(** [json.dumps] on a list. *)
Variable json_dumps : list value -> string.

(** The result of the loop of [flatten_dict] for the value [v] found
    under [new_key]: a nested dict contributes
    [flatten_dict(v, new_key, sep).items()] (the whole call, ending in
    [dict(items)]), a list its [json.dumps], anything else itself. *)
Fixpoint flatten_value (v : value) (new_key sep : string) {struct v}
  : list (string * value) :=
  match v with
  | VDict d =>
    dict_of_items
      ((fix items (d : dict) : list (string * value) :=
          match d with
          | [] => []
          | (k, v') :: d' => flatten_value v' (join_key new_key sep k) sep ++ items d'
          end) d)
  | VList l => [(new_key, VStr (json_dumps l))]
  | _ => [(new_key, v)]
  end.

(** [flatten_dict(d, parent_key, sep)] *)
Definition flatten_dict (d : dict) (parent_key sep : string) : dict :=
  flatten_value (VDict d) parent_key sep.

(** Comparison model, following the wording of the claim: every leaf of
    the nested dictionary under its joined key, lists serialised, other
    values unchanged, with no merging of equal keys. *)
Fixpoint spec_leaves (v : value) (new_key sep : string) {struct v}
  : list (string * value) :=
  match v with
  | VDict d =>
    (fix items (d : dict) : list (string * value) :=
       match d with
       | [] => []
       | (k, v') :: d' => spec_leaves v' (join_key new_key sep k) sep ++ items d'
       end) d
  | VList l => [(new_key, VStr (json_dumps l))]
  | _ => [(new_key, v)]
  end.
(** The [items] of one [flatten_dict] call, named for the proofs. *)
Fixpoint flat_items (parent_key sep : string) (d : dict) : list (string * value) :=
  match d with
  | [] => []
  | (k, v) :: d' => flatten_value v (join_key parent_key sep k) sep ++ flat_items parent_key sep d'
  end.

Fixpoint spec_items (parent_key sep : string) (d : dict) : list (string * value) :=
  match d with
  | [] => []
  | (k, v) :: d' => spec_leaves v (join_key parent_key sep k) sep ++ spec_items parent_key sep d'
  end.
End Flatten.

(** The value stored last under [k] in a list of pairs. *)
Fixpoint lookup_last (items : list (string * value)) (k : string) : option value :=
  match items with
  | [] => None
  | (k', v) :: items' =>
    match lookup_last items' k with
    | Some w => Some w
    | None => if String.eqb k' k then Some v else None
    end
  end.

(** A toy [json.dumps] for concrete runs (only the list length matters). *)
Definition dumps_len (l : list value) : string :=
  match l with [] => "[]" | _ => "[...]" end.

Example flatten_ex :
  flatten_dict dumps_len
    [("id", VInt 7); ("meta", VDict [("a", VBool true); ("tags", VList [VStr "x"])])] "" "_"
  = [("id", VInt 7); ("meta_a", VBool true); ("meta_tags", VStr "[...]")].
Proof. reflexivity. Qed.

Example merge_numeric_ex :
  merge_extractions [[("total", VInt 100)]; [("total", VInt 200)]; [("total", VInt 300)]]
  = Some [("total", VFloat ((inject_Z 100 + (inject_Z 200 + (inject_Z 300 + 0))) / inject_Z 3))].
Proof. reflexivity. Qed.

Example merge_text_ex :
  merge_extractions [[("currency", VStr "USD")]; [("currency", VStr "USD")]; [("currency", VStr "CAD")]]
  = Some [("currency", VStr "USD")].
Proof. reflexivity. Qed.

Example merge_list_ex :
  merge_extractions [[("parties", VList [VStr "A"; VStr "B"])]; [("parties", VList [VStr "B"; VStr "C"])]]
  = Some [("parties", VList [VStr "A"; VStr "B"; VStr "C"])].
Proof. reflexivity. Qed.

(** ** The JSON span of a Gemini or Ollama reply ([LLMClients.classify]
    and [LLMClients.extract], lines 162, 173, 202 and 212; the OpenAI
    branches, lines 153 and 194, pass the whole reply to [json.loads]) *)

(** [s.find(c)] for a one-character [c]: the first index of [c], or -1. *)
Fixpoint str_find (c : ascii) (s : string) : Z :=
  match s with
  | EmptyString => (-1)%Z
  | String a s' =>
    if Ascii.eqb a c then 0%Z
    else let r := str_find c s' in if (r <? 0)%Z then (-1)%Z else (r + 1)%Z
  end.

(** [s.rfind(c)] for a one-character [c]: the last index of [c], or -1. *)
Fixpoint str_rfind (c : ascii) (s : string) : Z :=
  match s with
  | EmptyString => (-1)%Z
  | String a s' =>
    let r := str_rfind c s' in
    if (0 <=? r)%Z then (r + 1)%Z
    else if Ascii.eqb a c then 0%Z else (-1)%Z
  end.

(** A slice bound of [s[i:j]] (step 1): a negative index counts from the
    end; the result is clamped to [0, len(s)]. *)
Definition py_slice_index (i : Z) (n : nat) : nat :=
  if (i <? 0)%Z then Z.to_nat (i + Z.of_nat n) else Nat.min (Z.to_nat i) n.

(** [s[i:j]]: empty when the normalised stop is not after the start. *)
Definition py_slice (s : string) (i j : Z) : string :=
  let a := py_slice_index i (String.length s) in
  let b := py_slice_index j (String.length s) in
  substring a (b - a) s.

(** [text[text.find("{") : text.rfind("}") + 1]], the string the Gemini
    and Ollama branches hand to [json.loads]. *)
Definition json_span (text : string) : string :=
  py_slice text (str_find "{"%char text) (str_rfind "}"%char text + 1).

(** ** [save_to_json] ([src/export.py], lines 15-45) *)

Section SaveJson.
(** [str(v)] in an f-string, for a value that is not a string. *)
Variable py_str : value -> string.

(** [f"{v}"] *)
Definition py_format (v : value) : string :=
  match v with VStr s => s | _ => py_str v end.

(** [v[:8]]: strings and lists slice; other values raise [TypeError]. *)
Definition slice_prefix8 (v : value) : option value :=
  match v with
  | VStr s => Some (VStr (substring 0 8 s))
  | VList l => Some (VList (firstn 8 l))
  | _ => None
  end.

(** Lines 33-35, on [doc_dict] (the [dict()] of a model, or the document
    itself): [f"{doc_type}_{doc_id[:8]}.json"]. *)
Definition doc_filename (doc_dict : dict) : option string :=
  let doc_id := dict_get_default doc_dict "document_id" (VStr "unknown") in
  let doc_type := dict_get_default doc_dict "document_type" (VStr "unknown") in
  match slice_prefix8 doc_id with
  | Some idp => Some (py_format doc_type ++ "_" ++ py_format idp ++ ".json")%string
  | None => None
  end.

(** The loop of lines 27-43 on the output directory, a map from file name
    to the document written there ([open(file_path, 'w')] replaces an
    existing file); [false] when an exception stops the loop, the files
    written so far staying. *)
Fixpoint save_docs (files : dict) (documents : list dict) : dict * bool :=
  match documents with
  | [] => (files, true)
  | doc_dict :: documents' =>
    match doc_filename doc_dict with
    | Some filename => save_docs (dict_setitem files filename (VDict doc_dict)) documents'
    | None => (files, false)
    end
  end.

Definition save_to_json (documents : list dict) (files : dict) : dict * bool :=
  save_docs files documents.

(** The last document of [documents] whose file name is [filename]. *)
Fixpoint last_named (filename : string) (documents : list dict) : option dict :=
  match documents with
  | [] => None
  | d :: ds =>
    match last_named filename ds with
    | Some d' => Some d'
    | None =>
      match doc_filename d with
      | Some fn => if String.eqb fn filename then Some d else None
      | None => None
      end
    end
  end.
End SaveJson.

(** The [values] list of line 78 for one key: the non-null [r.get(key)]
    in the order of [results]. *)
Definition field_values (results : list dict) (key : string) : list value :=
  filter (fun v => match v with VNone => false | _ => true end)
    (map (fun r => dict_get r key) results).

(** * Proofs *)

Local Open Scope nat_scope.

(** ** Facts about [Counter] and [most_common(1)] *)
Section CounterFacts.
Variable A : Type.
Variable eqb : A -> A -> bool.
Hypothesis eqb_iff : forall x y, eqb x y = true <-> x = y.

Lemma eqb_self x : eqb x x = true.
Proof. apply eqb_iff; reflexivity. Qed.

Lemma eqb_false x y : x <> y -> eqb x y = false.
Proof.
  intros Hne; destruct (eqb x y) eqn:E; auto.
  apply eqb_iff in E; contradiction.
Qed.

Lemma cnt_app x l1 l2 : cnt eqb x (l1 ++ l2) = (cnt eqb x l1 + cnt eqb x l2)%nat.
Proof. induction l1 as [|b l1 IH]; simpl; [reflexivity|]. destruct (eqb x b); lia. Qed.

Lemma cnt_one x a : cnt eqb x [a] = if eqb x a then 1%nat else 0%nat.
Proof. simpl. destruct (eqb x a); reflexivity. Qed.

Lemma cnt_not_in x l : ~ In x l -> cnt eqb x l = 0%nat.
Proof.
  induction l as [|b l IH]; simpl; intros Hn; [reflexivity|].
  destruct (eqb x b) eqn:E.
  - apply eqb_iff in E; subst; exfalso; apply Hn; left; reflexivity.
  - apply IH; intro; apply Hn; right; assumption.
Qed.

Lemma existsb_eqb_in a ks : existsb (eqb a) ks = true <-> In a ks.
Proof.
  rewrite existsb_exists; split.
  - intros [y [Hy E]]; apply eqb_iff in E; subst; assumption.
  - intros H; exists a; split; [assumption | apply eqb_self].
Qed.

Lemma counter_add_map pre ks a :
  NoDup ks ->
  counter_add eqb (map (fun x => (x, cnt eqb x pre)) ks) a
  = if existsb (eqb a) ks then map (fun x => (x, cnt eqb x (pre ++ [a]))) ks
    else map (fun x => (x, cnt eqb x pre)) ks ++ [(a, 1%nat)].
Proof.
  induction ks as [|b ks IH]; intros Hnd; simpl; [reflexivity|].
  apply NoDup_cons_iff in Hnd as [Hb Hnd].
  destruct (eqb b a) eqn:Eba.
  - apply eqb_iff in Eba; subst b. rewrite eqb_self; simpl.
    rewrite cnt_app, cnt_one, eqb_self. f_equal; [f_equal; lia|].
    apply map_ext_in; intros x Hx.
    rewrite cnt_app, cnt_one, eqb_false by (intro; subst; contradiction).
    f_equal; lia.
  - assert (Hab : a <> b) by (intro; subst; rewrite eqb_self in Eba; discriminate).
    rewrite (eqb_false a b Hab); simpl.
    rewrite IH by assumption.
    destruct (existsb (eqb a) ks); simpl.
    + rewrite cnt_app, cnt_one, (eqb_false b a) by congruence.
      f_equal; f_equal; lia.
    + reflexivity.
Qed.

Lemma keys_step_in ks a x : In x (keys_step eqb ks a) <-> In x ks \/ x = a.
Proof.
  unfold keys_step; destruct (existsb (eqb a) ks) eqn:E.
  - apply existsb_eqb_in in E; split; [tauto|]; intros [H|H]; subst; auto.
  - rewrite in_app_iff; simpl; split; intros [H|H]; auto.
    + destruct H as [H|[]]; auto.
Qed.

Lemma keys_step_nodup ks a : NoDup ks -> NoDup (keys_step eqb ks a).
Proof.
  intros Hnd; unfold keys_step; destruct (existsb (eqb a) ks) eqn:E; [assumption|].
  apply NoDup_app; [assumption | constructor; [intros []|constructor] |].
  intros y Hy [Hya|[]]; subst.
  assert (existsb (eqb y) ks = true) by (apply existsb_eqb_in; assumption).
  congruence.
Qed.

Lemma keys_fold_in l : forall ks x,
  In x (fold_left (keys_step eqb) l ks) <-> In x ks \/ In x l.
Proof.
  induction l as [|a l IH]; intros ks x; simpl; [tauto|].
  rewrite IH, keys_step_in; split; intros H; intuition (subst; auto).
Qed.

Lemma keys_fold_nodup l : forall ks, NoDup ks -> NoDup (fold_left (keys_step eqb) l ks).
Proof.
  induction l as [|a l IH]; intros ks Hnd; simpl; [assumption|].
  apply IH, keys_step_nodup, Hnd.
Qed.

Lemma keys_fold_prefix l : forall ks, exists rest, fold_left (keys_step eqb) l ks = ks ++ rest.
Proof.
  induction l as [|a l IH]; intros ks; simpl.
  - exists []; rewrite app_nil_r; reflexivity.
  - destruct (IH (keys_step eqb ks a)) as [rest Hr]; rewrite Hr.
    unfold keys_step; destruct (existsb (eqb a) ks).
    + exists rest; reflexivity.
    + exists (a :: rest); rewrite <- app_assoc; reflexivity.
Qed.

Lemma counter_fold l : forall pre ks,
  NoDup ks -> (forall x, In x pre <-> In x ks) ->
  fold_left (counter_add eqb) l (map (fun x => (x, cnt eqb x pre)) ks)
  = map (fun x => (x, cnt eqb x (pre ++ l))) (fold_left (keys_step eqb) l ks).
Proof.
  induction l as [|a l IH]; intros pre ks Hnd Hin; simpl.
  - rewrite app_nil_r; reflexivity.
  - rewrite counter_add_map by assumption.
    replace (pre ++ a :: l) with ((pre ++ [a]) ++ l) by (rewrite <- app_assoc; reflexivity).
    rewrite <- IH.
    + f_equal. unfold keys_step.
      destruct (existsb (eqb a) ks) eqn:E; [reflexivity|].
      rewrite map_app; simpl. f_equal.
      * apply map_ext_in; intros x Hx.
        rewrite cnt_app, cnt_one, eqb_false; [f_equal; lia|].
        intro; subst. assert (existsb (eqb a) ks = true) by (apply existsb_eqb_in; assumption).
        congruence.
      * rewrite cnt_app, cnt_one, eqb_self, cnt_not_in; [reflexivity|].
        intro Ha; apply Hin in Ha.
        assert (existsb (eqb a) ks = true) by (apply existsb_eqb_in; assumption).
        congruence.
    + apply keys_step_nodup, Hnd.
    + intros x; rewrite in_app_iff, keys_step_in, Hin; simpl;
        split; intros H; intuition (subst; auto).
Qed.

Lemma counter_spec l : counter eqb l = map (fun x => (x, cnt eqb x l)) (keys_of eqb l).
Proof.
  unfold counter, keys_of.
  apply (counter_fold l [] []); [constructor | tauto].
Qed.
End CounterFacts.

Lemma max_first_spec {A} (c : list (A * nat)) : forall x,
  exists c1 c2,
    x :: c = c1 ++ max_first x c :: c2 /\
    (forall y, In y c1 -> snd y < snd (max_first x c)) /\
    (forall y, In y (x :: c) -> snd y <= snd (max_first x c)).
Proof.
  induction c as [|z c IH]; intros x; simpl.
  - exists [], []; split; [reflexivity|]; split; [intros _ []|].
    intros y [<-|[]]; lia.
  - destruct (Nat.ltb (snd x) (snd z)) eqn:E.
    + apply Nat.ltb_lt in E.
      destruct (IH z) as (c1 & c2 & Heq & Hlt & Hle).
      exists (x :: c1), c2; split; [simpl; f_equal; exact Heq|]; split.
      * intros y [<-|Hy]; [|auto].
        specialize (Hle z (or_introl eq_refl)); lia.
      * intros y [<-|Hy]; [|auto].
        specialize (Hle z (or_introl eq_refl)); lia.
    + apply Nat.ltb_ge in E.
      destruct (IH x) as (c1 & c2 & Heq & Hlt & Hle).
      destruct c1 as [|w c1].
      * simpl in Heq; injection Heq as Hx Hc; rewrite <- Hx.
        exists [], (z :: c2); split; [subst; reflexivity|]; split; [intros _ []|].
        rewrite <- Hx in Hle.
        intros y [<-|[<-|Hy]]; simpl in *; try lia.
        apply Hle; right; assumption.
      * simpl in Heq; injection Heq as Hw Hc; subst w.
        exists (x :: z :: c1), c2; split; [simpl; do 2 f_equal; exact Hc|]; split.
        -- intros y [<-|[<-|Hy]].
           ++ apply Hlt; left; reflexivity.
           ++ specialize (Hlt x (or_introl eq_refl)); lia.
           ++ apply Hlt; right; assumption.
        -- intros y [<-|[<-|Hy]].
           ++ apply Hle; left; reflexivity.
           ++ specialize (Hle x (or_introl eq_refl)); lia.
           ++ apply Hle; right; assumption.
Qed.

Lemma nodup_split_unique {A} (a b a' b' : list A) (x : A) :
  NoDup (a ++ x :: b) -> a ++ x :: b = a' ++ x :: b' -> a = a'.
Proof.
  revert a'; induction a as [|y a IH]; intros a' Hnd Heq; destruct a' as [|y' a']; simpl in *.
  - reflexivity.
  - injection Heq as -> Hb. apply NoDup_cons_iff in Hnd as [Hn _].
    exfalso; apply Hn; rewrite Hb; apply in_elt.
  - injection Heq as <- Hb. apply NoDup_cons_iff in Hnd as [Hn _].
    exfalso; apply Hn; apply in_elt.
  - injection Heq as <- Hb. apply NoDup_cons_iff in Hnd as [_ Hnd].
    f_equal; apply IH; assumption.
Qed.

Section Plurality.
Variable A : Type.
Variable eqb : A -> A -> bool.
Hypothesis eqb_iff : forall x y, eqb x y = true <-> x = y.

Lemma keys_of_split pre m post :
  ~ In m pre -> exists rest, keys_of eqb (pre ++ m :: post) = keys_of eqb pre ++ m :: rest.
Proof.
  intros Hm. unfold keys_of. rewrite fold_left_app; simpl.
  unfold keys_step at 2.
  destruct (existsb (eqb m) (fold_left (keys_step eqb) pre [])) eqn:E.
  - apply (existsb_eqb_in A eqb eqb_iff), (keys_fold_in A eqb eqb_iff) in E.
    destruct E as [[]|E]; contradiction.
  - destruct (keys_fold_prefix A eqb post
                (fold_left (keys_step eqb) pre [] ++ [m])) as [rest Hr].
    rewrite Hr, <- app_assoc; exists rest; reflexivity.
Qed.

(** [Counter(l).most_common(1)[0][0]] is an element of [l] of maximal
    count, and every element seen before its first occurrence has a
    strictly smaller count. *)
Lemma most_common1_spec l :
  l <> [] ->
  exists m, most_common1 eqb l = Some m /\ In m l /\
    (forall x, cnt eqb x l <= cnt eqb m l) /\
    (forall pre post, l = pre ++ m :: post -> ~ In m pre ->
       forall x, In x pre -> cnt eqb x l < cnt eqb m l).
Proof.
  intros Hne. unfold most_common1. rewrite (counter_spec A eqb eqb_iff).
  assert (Hkin : forall x, In x (keys_of eqb l) <-> In x l).
  { intros x; unfold keys_of; rewrite (keys_fold_in A eqb eqb_iff); simpl; tauto. }
  assert (Hknd : NoDup (keys_of eqb l)) by (apply (keys_fold_nodup A eqb eqb_iff); constructor).
  destruct (keys_of eqb l) as [|k ks] eqn:Hk.
  { destruct l as [|a l]; [contradiction|]. exfalso; apply (proj2 (Hkin a)); left; reflexivity. }
  simpl.
  set (f := fun x => (x, cnt eqb x l)).
  destruct (max_first_spec (map f ks) (f k)) as (c1 & c2 & Heq & Hlt & Hle).
  change (f k :: map f ks) with (map f (k :: ks)) in Heq, Hle.
  pose proof (map_eq_app _ _ _ _ Heq) as (k1 & k2 & Hks & Hk1 & Hk2).
  apply map_eq_cons in Hk2 as (m & k2' & -> & Hm & _).
  assert (Hr : max_first (k, cnt eqb k l) (map (fun x => (x, cnt eqb x l)) ks)
               = (m, cnt eqb m l)) by exact (eq_sym Hm).
  rewrite <- Hm in Hlt, Hle. subst f; simpl in Hlt, Hle. rewrite Hr; simpl.
  exists m; split; [reflexivity|].
  assert (Hmk : In m (k :: ks)) by (rewrite Hks; apply in_elt).
  split; [apply Hkin; assumption|]. split.
  - intros x. destruct (existsb (eqb x) l) eqn:Ex.
    + apply (existsb_eqb_in A eqb eqb_iff) in Ex. apply Hkin in Ex.
      apply (Hle (x, cnt eqb x l)).
      exact (in_map (fun x => (x, cnt eqb x l)) (k :: ks) x Ex).
    + rewrite (cnt_not_in A eqb eqb_iff); [lia|].
      intro Hx; apply (existsb_eqb_in A eqb eqb_iff) in Hx; congruence.
  - intros pre post Hl Hmpre x Hx.
    destruct (keys_of_split pre m post Hmpre) as [rest Hsp].
    rewrite <- Hl, Hk, Hks in Hsp.
    assert (Hk1e : k1 = keys_of eqb pre).
    { apply (nodup_split_unique _ k2' _ rest m); [rewrite <- Hks; assumption | exact Hsp]. }
    apply (Hlt (x, cnt eqb x l)). rewrite <- Hk1, in_map_iff.
    exists x; split; [reflexivity|]. rewrite Hk1e.
    unfold keys_of; apply (keys_fold_in A eqb eqb_iff); right; assumption.
Qed.
End Plurality.

(** ** Classification consensus *)

Lemma inject_len_nonzero {B} (x : B) (xs : list B) :
  ~ (inject_Z (Z.of_nat (length (x :: xs))) == 0)%Q.
Proof.
  intros H. change 0%Q with (inject_Z 0) in H.
  apply inject_Z_injective in H. simpl in H. discriminate.
Qed.

(** C1: for a non-empty vote list the merged label occurs among the votes,
    no label occurs more often, every label met before its first occurrence
    occurs strictly less often (first-encountered tie-break), and the merged
    confidence times the number of votes is the sum of all confidences. *)
Theorem classify_ensemble_plurality_mean (votes : list ClassificationResult) :
  votes <> [] ->
  let '(label, conf, _) := classify_ensemble votes in
  let labels := map doc_type votes in
  In label labels /\
  (forall l, cnt String.eqb l labels <= cnt String.eqb label labels) /\
  (forall pre post, labels = pre ++ label :: post -> ~ In label pre ->
     forall l, In l pre -> cnt String.eqb l labels < cnt String.eqb label labels) /\
  (conf * inject_Z (Z.of_nat (length votes)) == Qsum (map confidence votes))%Q.
Proof.
  intros Hne. destruct votes as [|v vs]; [contradiction|].
  destruct (most_common1_spec string String.eqb String.eqb_eq (map doc_type (v :: vs)))
    as (m & Hm & Hin & Hmax & Htie); [discriminate|].
  unfold classify_ensemble. rewrite Hm.
  split; [exact Hin|]. split; [exact Hmax|]. split; [exact Htie|].
  unfold py_mean. rewrite length_map.
  field. apply inject_len_nonzero.
Qed.

Lemma classify_ensemble_witness :
  [ {| provider := "openai"; doc_type := "invoice"; confidence := 9#10 |};
    {| provider := "gemini"; doc_type := "email"; confidence := 5#10 |} ] <> [] /\
  let '(label, conf, _) := classify_ensemble
    [ {| provider := "openai"; doc_type := "invoice"; confidence := 9#10 |};
      {| provider := "gemini"; doc_type := "email"; confidence := 5#10 |} ] in
  let labels := map doc_type
    [ {| provider := "openai"; doc_type := "invoice"; confidence := 9#10 |};
      {| provider := "gemini"; doc_type := "email"; confidence := 5#10 |} ] in
  In label labels /\
  (forall l, cnt String.eqb l labels <= cnt String.eqb label labels) /\
  (forall pre post, labels = pre ++ label :: post -> ~ In label pre ->
     forall l, In l pre -> cnt String.eqb l labels < cnt String.eqb label labels) /\
  (conf * inject_Z (Z.of_nat 2) ==
   Qsum (map confidence
     [ {| provider := "openai"; doc_type := "invoice"; confidence := 9#10 |};
       {| provider := "gemini"; doc_type := "email"; confidence := 5#10 |} ]))%Q.
Proof.
  split; [discriminate|].
  exact (classify_ensemble_plurality_mean
    [ {| provider := "openai"; doc_type := "invoice"; confidence := 9#10 |};
      {| provider := "gemini"; doc_type := "email"; confidence := 5#10 |} ]
    ltac:(discriminate)).
Defined.

(** C3: with zero successful votes, classification yields
    [("unknown", 0.0, [])] and extraction yields [({}, [])]; neither raises. *)
Theorem empty_votes_no_consensus :
  classify_ensemble [] = ("unknown", 0%Q, []) /\
  ensemble_extract [] = Some ([], []) /\
  merge_extractions [] = Some [].
Proof. repeat split. Qed.

Lemma py_mean_single (c : Q) : py_mean [c] = c.
Proof.
  destruct c as [n d]. unfold py_mean, Qdiv, Qmult, Qplus, Qinv; simpl.
  rewrite Z.mul_1_r, Z.add_0_r, Z.mul_1_r, Pos.mul_1_r, Pos.mul_1_r. reflexivity.
Qed.

(** C9: a single vote is returned unchanged: its label and confidence for
    classification, its field map for extraction. *)
Theorem single_vote_identity (v : ClassificationResult) (e : ExtractionResult) :
  classify_ensemble [v] = (doc_type v, confidence v, [provider v]) /\
  merge_extractions [fields e] = Some (fields e) /\
  ensemble_extract [e] = Some (fields e, [ex_provider e]).
Proof.
  split; [|split; reflexivity].
  unfold classify_ensemble; simpl. rewrite py_mean_single. reflexivity.
Qed.

(** ** Fan-out rounds *)

Lemma classify_nodes_ok_votes (collected : list (string * classify_outcome)) :
  flat_map (fun '(p, o) => classify_node p o) collected = ok_votes collected.
Proof.
  induction collected as [|[p [[t c]|]] cs IH]; simpl; [reflexivity| |exact IH].
  unfold ok_votes in *; simpl. f_equal; exact IH.
Qed.

Lemma ok_votes_providers (collected : list (string * classify_outcome)) :
  map provider (ok_votes collected) = ok_providers collected.
Proof.
  induction collected as [|[p [[t c]|]] cs IH]; simpl; [reflexivity| |exact IH].
  unfold ok_votes, ok_providers in *; simpl. f_equal; exact IH.
Qed.

Lemma filter_length_split {B} (f : B -> bool) (l : list B) :
  length (filter f l) + length (filter (fun x => negb (f x)) l) = length l.
Proof. induction l as [|x l IH]; simpl; [reflexivity|]. destruct (f x); simpl; lia. Qed.

Lemma extract_nodes_ok (collected : list (string * extract_outcome)) :
  flat_map (fun '(p, o) => extract_node p o) collected
  = flat_map (fun '(p, o) => extract_node p o) (filter call_ok collected).
Proof.
  induction collected as [|[p [f|]] cs IH]; simpl; [reflexivity| |exact IH].
  f_equal; exact IH.
Qed.

Lemma extract_nodes_all_failed (providers : list string) :
  flat_map (fun '(p, o) => extract_node p o) (map (fun p => (p, None)) providers) = [].
Proof. induction providers as [|p ps IH]; simpl; [reflexivity|exact IH]. Qed.

(** C5: a raising provider call only removes that provider's vote: the
    classification round (a total function, no exception channel) is the
    consensus of exactly the successful votes, its provider list is exactly
    the providers whose call returned, of length [N - k].  In the extraction
    round a raising call likewise contributes nothing: the round is the
    round of the successful calls alone, and a round where every call
    raises returns [({}, [])] without an exception. *)
Theorem round_partial_failure (collected : list (string * classify_outcome))
    (collected_x : list (string * extract_outcome)) (providers : list string) :
  classification_round collected = classify_ensemble (ok_votes collected) /\
  (let '(_, _, used) := classification_round collected in
   used = ok_providers collected /\
   length used = length collected - failed_count collected) /\
  extraction_round collected_x = extraction_round (filter call_ok collected_x) /\
  extraction_round (map (fun p => (p, None)) providers) = Some ([], []).
Proof.
  split; [|split; [|split]].
  - unfold classification_round. rewrite classify_nodes_ok_votes. reflexivity.
  - unfold classification_round. rewrite classify_nodes_ok_votes.
    assert (Hused : let '(_, _, used) := classify_ensemble (ok_votes collected) in
                    used = ok_providers collected).
    { rewrite <- ok_votes_providers. unfold classify_ensemble.
      destruct (ok_votes collected); reflexivity. }
    destruct (classify_ensemble (ok_votes collected)) as [[lab conf] used].
    split; [exact Hused|]. subst used.
    unfold ok_providers, failed_count. rewrite length_map.
    pose proof (filter_length_split call_ok collected) as H.
    unfold classify_outcome in *. lia.
  - unfold extraction_round. rewrite <- extract_nodes_ok. reflexivity.
  - unfold extraction_round. rewrite extract_nodes_all_failed. reflexivity.
Qed.

(** C7 (counterexample): an empty provider set and a set whose only
    provider failed give the same results. *)
Lemma no_providers_indistinguishable :
  classification_round [] = classification_round [("openai", None)] /\
  extraction_round [] = extraction_round [("openai", None)].
Proof. split; reflexivity. Qed.

(** C7 (amended): with no provider available, ensemble classification
    returns [("unknown", 0.0, [])] and extraction [({}, [])], the very
    values returned when every provider ran and failed. *)
Theorem no_providers_same_as_all_failed
  (cc : list (string * classify_outcome)) (ec : list (string * extract_outcome)) :
  (forall po, In po cc -> snd po = None) ->
  (forall po, In po ec -> snd po = None) ->
  classification_round [] = ("unknown", 0%Q, []) /\
  classification_round cc = classification_round [] /\
  extraction_round [] = Some ([], []) /\
  extraction_round ec = extraction_round [].
Proof.
  intros Hc He. split; [reflexivity|]. split; [|split; [reflexivity|]].
  - unfold classification_round.
    replace (flat_map (fun '(p, o) => classify_node p o) cc) with (@nil ClassificationResult);
      [reflexivity|].
    induction cc as [|[p o] cc IH]; [reflexivity|].
    pose proof (Hc (p, o) (or_introl eq_refl)) as Ho; simpl in Ho; subst o; simpl.
    apply IH; intros po Hpo; apply Hc; right; exact Hpo.
  - unfold extraction_round.
    replace (flat_map (fun '(p, o) => extract_node p o) ec) with (@nil ExtractionResult);
      [reflexivity|].
    induction ec as [|[p o] ec IH]; [reflexivity|].
    pose proof (He (p, o) (or_introl eq_refl)) as Ho; simpl in Ho; subst o; simpl.
    apply IH; intros po Hpo; apply He; right; exact Hpo.
Qed.

Lemma no_providers_witness :
  (forall po, In po [("openai", @None (string * Q)); ("gemini", None)] -> snd po = None) /\
  (forall po, In po [("ollama", @None dict)] -> snd po = None) /\
  classification_round [] = ("unknown", 0%Q, []) /\
  classification_round [("openai", None); ("gemini", None)] = classification_round [] /\
  extraction_round [] = Some ([], []) /\
  extraction_round [("ollama", None)] = extraction_round [].
Proof.
  assert (H1 : forall po, In po [("openai", @None (string * Q)); ("gemini", None)] -> snd po = None)
    by (intros po [<-|[<-|[]]]; reflexivity).
  assert (H2 : forall po, In po [("ollama", @None dict)] -> snd po = None)
    by (intros po [<-|[]]; reflexivity).
  split; [exact H1|]. split; [exact H2|].
  exact (no_providers_same_as_all_failed _ _ H1 H2).
Defined.

(** ** Extraction merge on concrete inputs *)

(** C2 (failing input): a numeric field with a string contribution makes
    [sum(values)] raise [TypeError], and the exception leaves
    [ensemble_extract]. *)
Theorem numeric_merge_with_string_raises :
  merge_extractions [[("total", VInt 100)]; [("total", VStr "abc")]] = None /\
  extraction_round [("openai", Some [("total", VInt 100)]);
                    ("gemini", Some [("total", VStr "abc")])] = None.
Proof. split; reflexivity. Qed.

(** C8 (failing input): booleans take the numeric branch ([bool] is an
    [int]) and are averaged: [True] and [False] merge to [0.5]. *)
Theorem boolean_merge_averaged :
  merge_extractions [[("flag", VBool true)]; [("flag", VBool false)]]
  = Some [("flag", VFloat (1 # 2))].
Proof. reflexivity. Qed.

(** ** Confidence parsing *)




(** ** Key set of the extraction merge *)
Section DedupFacts.
Variable A : Type.
Variable eqb : A -> A -> bool.
Hypothesis eqb_iff : forall x y, eqb x y = true <-> x = y.

Lemma dedup_from_in l : forall seen x,
  In x (dedup_from eqb seen l) <-> In x l /\ ~ In x seen.
Proof.
  induction l as [|a l IH]; intros seen x; simpl; [tauto|].
  destruct (existsb (eqb a) seen) eqn:E.
  - apply (existsb_eqb_in A eqb eqb_iff) in E.
    rewrite IH; split; [tauto|]. intros [[<-|H] Hn]; [contradiction|tauto].
  - simpl. rewrite IH. simpl.
    assert (Ha : ~ In a seen)
      by (intro Ha; apply (existsb_eqb_in A eqb eqb_iff) in Ha; congruence).
    destruct (eqb a x) eqn:Eax.
    + apply eqb_iff in Eax; subst x. tauto.
    + assert (a <> x) by (intro; subst; rewrite (eqb_self A eqb eqb_iff) in Eax; discriminate).
      tauto.
Qed.

Lemma dedup_from_nodup l : forall seen, NoDup (dedup_from eqb seen l).
Proof.
  induction l as [|a l IH]; intros seen; simpl; [constructor|].
  destruct (existsb (eqb a) seen); [apply IH|].
  constructor; [|apply IH].
  rewrite dedup_from_in; simpl; tauto.
Qed.
End DedupFacts.

Lemma map_opt_pairs (g : string -> option value) (ks : list string) (m : dict) :
  map_opt (fun k => option_map (pair k) (g k)) ks = Some m ->
  map fst m = ks /\ (forall k v, In (k, v) m -> g k = Some v).
Proof.
  revert m; induction ks as [|k ks IH]; intros m Hm; simpl in Hm.
  - injection Hm as <-; split; [reflexivity | intros _ _ []].
  - destruct (g k) as [v|] eqn:Eg; simpl in Hm; [|discriminate].
    destruct (map_opt _ ks) as [m'|] eqn:Em; [|discriminate].
    injection Hm as <-. destruct (IH m' eq_refl) as [Hk Hv].
    split; [simpl; f_equal; exact Hk|].
    intros k' v' [Heq|Hin]; [injection Heq as <- <-; exact Eg | apply Hv; exact Hin].
Qed.

Lemma dict_lookup_nodup_in (d : dict) k v :
  NoDup (map fst d) -> In (k, v) d -> dict_lookup d k = Some v.
Proof.
  induction d as [|[k' v'] d IH]; simpl; intros Hnd Hin; [contradiction|].
  apply NoDup_cons_iff in Hnd as [Hn Hnd].
  destruct Hin as [Heq|Hin].
  - injection Heq as -> ->. rewrite String.eqb_refl; reflexivity.
  - destruct (String.eqb k' k) eqn:E.
    + apply String.eqb_eq in E; subst k'. exfalso; apply Hn.
      apply in_map_iff; exists (k, v); split; [reflexivity|exact Hin].
    + apply IH; assumption.
Qed.

Lemma dict_lookup_key (d : dict) k :
  In k (map fst d) -> exists v, dict_lookup d k = Some v.
Proof.
  induction d as [|[k' v'] d IH]; simpl; intros Hin; [contradiction|].
  destruct (String.eqb k' k) eqn:E; [exists v'; reflexivity|].
  destruct Hin as [->|Hin]; [rewrite String.eqb_refl in E; discriminate|].
  apply IH, Hin.
Qed.

Lemma merge_field_all_null (results : list dict) k :
  (forall r, In r results -> dict_get r k = VNone) -> merge_field results k = Some VNone.
Proof.
  intros Hnull. unfold merge_field.
  replace (filter _ (map (fun r => dict_get r k) results)) with (@nil value); [reflexivity|].
  induction results as [|r rs IH]; [reflexivity|]. simpl.
  rewrite (Hnull r (or_introl eq_refl)). apply IH.
  intros r' Hr'; apply Hnull; right; exact Hr'.
Qed.

(** C4: whenever the extraction merge returns, its key set is the union of
    the votes' key sets, and a key no vote gives a non-null value is
    present with value null. *)
Theorem merge_extractions_key_union (results : list dict) (merged : dict) :
  merge_extractions results = Some merged ->
  (forall k, In k (dict_keys merged) <-> exists r, In r results /\ In k (dict_keys r)) /\
  (forall k, (exists r, In r results /\ In k (dict_keys r)) ->
     (forall r, In r results -> dict_get r k = VNone) ->
     dict_lookup merged k = Some VNone).
Proof.
  destruct results as [|r [|r2 rs]]; intros Hm; simpl in Hm.
  - injection Hm as <-. split.
    + intros k; simpl; split; [intros []|intros (r & [] & _)].
    + intros k (r & [] & _).
  - injection Hm as <-. split.
    + intros k; split; [intros Hk; exists r; split; [left; reflexivity|exact Hk]|].
      intros (r' & [<-|[]] & Hk); exact Hk.
    + intros k (r' & [<-|[]] & Hk) Hnull.
      destruct (dict_lookup_key r k Hk) as [v Hv].
      specialize (Hnull r (or_introl eq_refl)). unfold dict_get in Hnull.
      rewrite Hv in Hnull |- *. rewrite Hnull; reflexivity.
  - remember (r :: r2 :: rs) as results eqn:Hres.
    apply map_opt_pairs in Hm as [Hkeys Hvals].
    assert (Hin : forall k, In k (dict_keys merged) <-> exists r, In r results /\ In k (dict_keys r)).
    { intros k. unfold dict_keys at 1. rewrite Hkeys. unfold all_keys, dedup.
      rewrite (dedup_from_in string String.eqb String.eqb_eq), in_flat_map. simpl; tauto. }
    split; [exact Hin|].
    intros k Hk Hnull.
    apply Hin in Hk. unfold dict_keys in Hk. apply in_map_iff in Hk as ([k' v] & Hk' & Hkv).
    simpl in Hk'; subst k'.
    apply Hvals in Hkv as Hv. rewrite merge_field_all_null in Hv by exact Hnull.
    injection Hv as <-.
    apply dict_lookup_nodup_in; [|exact Hkv].
    rewrite Hkeys. apply (dedup_from_nodup string String.eqb String.eqb_eq).
Qed.

Lemma merge_key_union_witness :
  merge_extractions [[("a", VStr "y"); ("c", VNone)]; [("b", VStr "x")]]
    = Some [("a", VStr "y"); ("c", VNone); ("b", VStr "x")] /\
  (forall k, In k (dict_keys [("a", VStr "y"); ("c", VNone); ("b", VStr "x")]) <->
     exists r, In r [[("a", VStr "y"); ("c", VNone)]; [("b", VStr "x")]] /\ In k (dict_keys r)) /\
  (forall k, (exists r, In r [[("a", VStr "y"); ("c", VNone)]; [("b", VStr "x")]] /\ In k (dict_keys r)) ->
     (forall r, In r [[("a", VStr "y"); ("c", VNone)]; [("b", VStr "x")]] -> dict_get r k = VNone) ->
     dict_lookup [("a", VStr "y"); ("c", VNone); ("b", VStr "x")] k = Some VNone).
Proof.
  assert (H : merge_extractions [[("a", VStr "y"); ("c", VNone)]; [("b", VStr "x")]]
              = Some [("a", VStr "y"); ("c", VNone); ("b", VStr "x")]) by reflexivity.
  split; [exact H|].
  exact (merge_extractions_key_union _ _ H).
Defined.

(** ** [flatten_dict] *)

Lemma dict_setitem_in (d : dict) k0 v0 k v :
  In (k, v) (dict_setitem d k0 v0) -> In (k, v) d \/ (k, v) = (k0, v0).
Proof.
  induction d as [|[k' v'] d IH]; simpl; [intros [H|[]]; right; congruence|].
  destruct (String.eqb k' k0) eqn:E.
  - apply String.eqb_eq in E; subst k'.
    intros [H|H]; [right; congruence | left; right; exact H].
  - intros [H|H]; [left; left; exact H|]. destruct (IH H); [left; right|right]; assumption.
Qed.

Lemma dict_setitem_keys (d : dict) k0 v0 x :
  In x (map fst (dict_setitem d k0 v0)) -> In x (map fst d) \/ x = k0.
Proof.
  induction d as [|[k' v'] d IH]; simpl; [intros [H|[]]; right; congruence|].
  destruct (String.eqb k' k0) eqn:E; simpl.
  - intros [H|H]; left; [left|right]; assumption.
  - intros [H|H]; [left; left; exact H|]. destruct (IH H); [left; right|right]; assumption.
Qed.

Lemma dict_setitem_nodup (d : dict) k0 v0 :
  NoDup (map fst d) -> NoDup (map fst (dict_setitem d k0 v0)).
Proof.
  induction d as [|[k' v'] d IH]; simpl; intros Hnd; [constructor; [intros []|constructor]|].
  apply NoDup_cons_iff in Hnd as [Hn Hnd].
  destruct (String.eqb k' k0) eqn:E; simpl; constructor; auto.
  intros Hin. apply dict_setitem_keys in Hin as [Hin|Hin]; [contradiction|].
  subst; rewrite String.eqb_refl in E; discriminate.
Qed.

Lemma dict_lookup_setitem (d : dict) k0 v0 k :
  dict_lookup (dict_setitem d k0 v0) k = if String.eqb k0 k then Some v0 else dict_lookup d k.
Proof.
  induction d as [|[k' v'] d IH]; simpl; [reflexivity|].
  destruct (String.eqb_spec k' k0) as [->|Hne]; simpl.
  - destruct (String.eqb k0 k); reflexivity.
  - rewrite IH. destruct (String.eqb_spec k' k) as [->|Hne']; [|reflexivity].
    destruct (String.eqb_spec k0 k); [congruence|reflexivity].
Qed.

Definition setitem_step (d : dict) (kv : string * value) : dict :=
  let '(k, v) := kv in dict_setitem d k v.

Lemma dict_of_items_fold (items : list (string * value)) :
  forall d, fold_left (fun d '(k, v) => dict_setitem d k v) items d
            = fold_left setitem_step items d.
Proof. reflexivity. Qed.

Lemma fold_setitem_lookup (items : list (string * value)) : forall d k,
  dict_lookup (fold_left setitem_step items d) k
  = match lookup_last items k with Some w => Some w | None => dict_lookup d k end.
Proof.
  induction items as [|[k0 v0] items IH]; intros d k; simpl; [reflexivity|].
  rewrite IH, dict_lookup_setitem.
  destruct (lookup_last items k); [reflexivity|].
  destruct (String.eqb k0 k); reflexivity.
Qed.

Lemma fold_setitem_in (items : list (string * value)) : forall d k v,
  In (k, v) (fold_left setitem_step items d) -> In (k, v) d \/ In (k, v) items.
Proof.
  induction items as [|[k0 v0] items IH]; intros d k v; simpl; [tauto|].
  intros H. apply IH in H as [H|H]; [|tauto].
  apply dict_setitem_in in H as [H|H]; [tauto|]. right; left; congruence.
Qed.

Lemma fold_setitem_nodup (items : list (string * value)) : forall d,
  NoDup (map fst d) -> NoDup (map fst (fold_left setitem_step items d)).
Proof.
  induction items as [|[k0 v0] items IH]; intros d Hnd; simpl; [exact Hnd|].
  apply IH, dict_setitem_nodup, Hnd.
Qed.

Lemma dict_lookup_not_key (d : dict) k : ~ In k (map fst d) -> dict_lookup d k = None.
Proof.
  induction d as [|[k' v'] d IH]; simpl; intros Hn; [reflexivity|].
  destruct (String.eqb_spec k' k); [exfalso; apply Hn; left; assumption|].
  apply IH; intro; apply Hn; right; assumption.
Qed.

Lemma lookup_last_nodup (d : dict) k : NoDup (map fst d) -> lookup_last d k = dict_lookup d k.
Proof.
  induction d as [|[k' v'] d IH]; simpl; intros Hnd; [reflexivity|].
  apply NoDup_cons_iff in Hnd as [Hn Hnd]. rewrite IH by exact Hnd.
  destruct (String.eqb_spec k' k) as [->|Hne].
  - rewrite dict_lookup_not_key by exact Hn; reflexivity.
  - destruct (dict_lookup d k); reflexivity.
Qed.

Lemma lookup_last_app (a b : list (string * value)) k :
  lookup_last (a ++ b) k = match lookup_last b k with Some w => Some w | None => lookup_last a k end.
Proof.
  induction a as [|[k' v'] a IH]; simpl.
  - destruct (lookup_last b k); reflexivity.
  - rewrite IH. destruct (lookup_last b k); reflexivity.
Qed.

Lemma dict_of_items_lookup (items : list (string * value)) k :
  lookup_last (dict_of_items items) k = lookup_last items k.
Proof.
  unfold dict_of_items. rewrite dict_of_items_fold, lookup_last_nodup.
  - rewrite fold_setitem_lookup. destruct (lookup_last items k); reflexivity.
  - apply fold_setitem_nodup; constructor.
Qed.

Lemma dict_of_items_in (items : list (string * value)) k v :
  In (k, v) (dict_of_items items) -> In (k, v) items.
Proof.
  unfold dict_of_items. rewrite dict_of_items_fold.
  intros H; apply fold_setitem_in in H as [[]|H]; exact H.
Qed.

Lemma flatten_value_dict json_dumps (d : dict) key sep :
  flatten_value json_dumps (VDict d) key sep = dict_of_items (flat_items json_dumps key sep d).
Proof.
  simpl. f_equal. induction d as [|[k v] d IH]; simpl; [reflexivity|]. f_equal; exact IH.
Qed.

Lemma spec_leaves_dict json_dumps (d : dict) key sep :
  spec_leaves json_dumps (VDict d) key sep = spec_items json_dumps key sep d.
Proof.
  simpl. induction d as [|[k v] d IH]; simpl; [reflexivity|]. f_equal; exact IH.
Qed.

Definition flat_leaf (x : value) : Prop := (forall d, x <> VDict d) /\ (forall l, x <> VList l).

Lemma flatten_value_ok json_dumps sep (v : value) : forall key,
  (forall k x, In (k, x) (flatten_value json_dumps v key sep) -> flat_leaf x) /\
  (forall k, lookup_last (flatten_value json_dumps v key sep) k
             = lookup_last (spec_leaves json_dumps v key sep) k).
Proof.
  induction v as [| b | z | q | s | l _ | d Hd] using value_ind'; intros key;
    try (split; [intros k x [H|[]]; injection H as _ <-; split; intros ? ?; discriminate
                |intros k; reflexivity]).
  rewrite flatten_value_dict, spec_leaves_dict.
  assert (Hitems :
    (forall k x, In (k, x) (flat_items json_dumps key sep d) -> flat_leaf x) /\
    (forall k, lookup_last (flat_items json_dumps key sep d) k
               = lookup_last (spec_items json_dumps key sep d) k)).
  { induction Hd as [|[k0 v0] d' Hv0 Hd' IH]; simpl; [split; [intros _ _ []|reflexivity]|].
    destruct IH as [IHa IHb]. destruct (Hv0 (join_key key sep k0)) as [Ha Hb].
    split.
    - intros k x Hin; apply in_app_or in Hin as [Hin|Hin]; [apply (Ha k)|apply (IHa k)]; exact Hin.
    - intros k; rewrite !lookup_last_app, IHb, Hb; reflexivity. }
  destruct Hitems as [Ha Hb]. split.
  - intros k x Hin; apply dict_of_items_in in Hin; apply (Ha k), Hin.
  - intros k; rewrite dict_of_items_lookup; apply Hb.
Qed.

(** C10 (counterexample): the leaf [1] under ["a_b"] is lost, overwritten by
    the nested leaf [{"a": {"b": 2}}], which flattens to the same key. *)
Lemma flatten_dict_key_collision :
  flatten_dict dumps_len [("a_b", VInt 1); ("a", VDict [("b", VInt 2)])] "" "_"
  = [("a_b", VInt 2)] /\
  ~ In ("a_b", VInt 1) (flatten_dict dumps_len [("a_b", VInt 1); ("a", VDict [("b", VInt 2)])] "" "_").
Proof.
  split; [reflexivity|]. simpl. intros [H|[]]. discriminate.
Qed.

(** C10 (amended): the result of [flatten_dict] is a dictionary (distinct
    keys) with no dict or list values, and under each key it holds the last
    leaf the claim's wording assigns to that key: nested keys joined to the
    parent key by [sep] (bare under an empty parent key), lists as their
    [json.dumps] string, other values unchanged. *)
Theorem flatten_dict_last_leaf (json_dumps : list value -> string) (d : dict) (parent_key sep : string) :
  (forall k x, In (k, x) (flatten_dict json_dumps d parent_key sep) -> flat_leaf x) /\
  NoDup (dict_keys (flatten_dict json_dumps d parent_key sep)) /\
  (forall k, dict_lookup (flatten_dict json_dumps d parent_key sep) k
             = lookup_last (spec_leaves json_dumps (VDict d) parent_key sep) k).
Proof.
  destruct (flatten_value_ok json_dumps sep (VDict d) parent_key) as [Ha Hb].
  assert (Hnd : NoDup (dict_keys (flatten_dict json_dumps d parent_key sep))).
  { unfold flatten_dict, dict_keys. rewrite flatten_value_dict.
    unfold dict_of_items; rewrite dict_of_items_fold. apply fold_setitem_nodup; constructor. }
  split; [exact Ha|]. split; [exact Hnd|].
  intros k. rewrite <- lookup_last_nodup by exact Hnd. apply Hb.
Qed.

(** * Further properties of the code *)

(** ** Classification consensus *)

Lemma inject_len_succ (n : nat) :
  (inject_Z (Z.of_nat (S n)) == inject_Z (Z.of_nat n) + 1)%Q.
Proof. rewrite Nat2Z.inj_succ; unfold Z.succ; rewrite inject_Z_plus; reflexivity. Qed.

Lemma inject_len_pos {B} (x : B) (xs : list B) :
  (0 < inject_Z (Z.of_nat (length (x :: xs))))%Q.
Proof. unfold Qlt; simpl; lia. Qed.

Lemma Qsum_unit_bounds (xs : list Q) :
  Forall (fun q => 0 <= q <= 1)%Q xs ->
  (0 <= Qsum xs <= inject_Z (Z.of_nat (length xs)))%Q.
Proof.
  induction 1 as [|q xs Hq _ IH]; [split; apply Qle_refl|].
  pose proof (inject_len_succ (length xs)) as Hs.
  change (Qsum (q :: xs)) with (q + Qsum xs)%Q.
  change (length (q :: xs)) with (S (length xs)). lra.
Qed.

Lemma classify_ensemble_conf (v : ClassificationResult) (vs : list ClassificationResult) :
  snd (fst (classify_ensemble (v :: vs))) = py_mean (map confidence (v :: vs)).
Proof. unfold classify_ensemble; destruct most_common1; reflexivity. Qed.

(** If every vote's confidence lies in [0, 1], so does the ensemble
    confidence (also for the empty round, whose confidence is 0). *)
Theorem classify_confidence_in_unit (votes : list ClassificationResult) :
  Forall (fun v => 0 <= confidence v <= 1)%Q votes ->
  let '(_, conf, _) := classify_ensemble votes in (0 <= conf <= 1)%Q.
Proof.
  intros Hv. destruct votes as [|v vs]; [simpl; lra|].
  pose proof (classify_ensemble_conf v vs) as Hc.
  destruct (classify_ensemble (v :: vs)) as [[t c] u]; cbn [fst snd] in Hc; subst c.
  assert (Hb : Forall (fun q => 0 <= q <= 1)%Q (map confidence (v :: vs))).
  { apply Forall_map; exact Hv. }
  apply Qsum_unit_bounds in Hb. rewrite length_map in Hb.
  pose proof (inject_len_pos v vs) as Hpos.
  unfold py_mean. rewrite length_map. split.
  - apply Qle_shift_div_l; [exact Hpos|]. lra.
  - apply Qle_shift_div_r; [exact Hpos|]. lra.
Qed.

Lemma classify_confidence_in_unit_witness :
  Forall (fun v => 0 <= confidence v <= 1)%Q
    [ {| provider := "openai"; doc_type := "invoice"; confidence := 9#10 |};
      {| provider := "ollama"; doc_type := "email"; confidence := 4#10 |} ] /\
  let '(_, conf, _) := classify_ensemble
    [ {| provider := "openai"; doc_type := "invoice"; confidence := 9#10 |};
      {| provider := "ollama"; doc_type := "email"; confidence := 4#10 |} ] in (0 <= conf <= 1)%Q.
Proof.
  assert (H : Forall (fun v => 0 <= confidence v <= 1)%Q
    [ {| provider := "openai"; doc_type := "invoice"; confidence := 9#10 |};
      {| provider := "ollama"; doc_type := "email"; confidence := 4#10 |} ]).
  { repeat constructor; simpl; unfold Qle; simpl; lia. }
  split; [exact H|]. exact (classify_confidence_in_unit _ H).
Defined.

(** A label with strictly more votes than every other label is the
    ensemble label, whatever the collection order. *)
Theorem classify_strict_plurality (votes : list ClassificationResult) (winner : string) :
  votes <> [] ->
  (forall l, l <> winner ->
     cnt String.eqb l (map doc_type votes) < cnt String.eqb winner (map doc_type votes)) ->
  fst (fst (classify_ensemble votes)) = winner.
Proof.
  intros Hne Hstrict. destruct votes as [|v vs]; [contradiction|].
  destruct (most_common1_spec string String.eqb String.eqb_eq (map doc_type (v :: vs)))
    as (m & Hm & _ & Hmax & _); [discriminate|].
  unfold classify_ensemble; rewrite Hm; simpl.
  destruct (String.eqb_spec m winner) as [->|Hne']; [reflexivity|].
  specialize (Hstrict m Hne'). specialize (Hmax winner). lia.
Qed.

Lemma classify_strict_plurality_witness :
  fst (fst (classify_ensemble
    [ {| provider := "openai"; doc_type := "email"; confidence := 9#10 |};
      {| provider := "gemini"; doc_type := "invoice"; confidence := 5#10 |};
      {| provider := "ollama"; doc_type := "invoice"; confidence := 7#10 |} ])) = "invoice".
Proof.
  apply classify_strict_plurality; [discriminate|].
  intros l Hl. simpl.
  destruct (String.eqb_spec l "email") as [->|Hle]; [simpl; lia|].
  destruct (String.eqb_spec l "invoice") as [->|Hli]; [contradiction|lia].
Defined.

(** ** Field merge *)

Section CounterMap.
Variables A B : Type.
Variable eqbA : A -> A -> bool.
Variable eqbB : B -> B -> bool.
Variable f : A -> B.
Hypothesis f_eqb : forall x y, eqbB (f x) (f y) = eqbA x y.

Lemma counter_add_fmap c a :
  counter_add eqbB (map (fun p => (f (fst p), snd p)) c) (f a)
  = map (fun p => (f (fst p), snd p)) (counter_add eqbA c a).
Proof.
  induction c as [|[b n] c IH]; simpl; [reflexivity|].
  rewrite f_eqb. destruct (eqbA b a); simpl; [reflexivity|]. rewrite IH; reflexivity.
Qed.

Lemma counter_fmap l : forall c,
  fold_left (counter_add eqbB) (map f l) (map (fun p => (f (fst p), snd p)) c)
  = map (fun p => (f (fst p), snd p)) (fold_left (counter_add eqbA) l c).
Proof.
  induction l as [|a l IH]; intros c; simpl; [reflexivity|].
  rewrite counter_add_fmap. apply IH.
Qed.

Lemma max_first_fmap c : forall x,
  max_first (f (fst x), snd x) (map (fun p => (f (fst p), snd p)) c)
  = (f (fst (max_first x c)), snd (max_first x c)).
Proof.
  induction c as [|y c IH]; intros x; simpl; [reflexivity|].
  destruct (Nat.ltb (snd x) (snd y)); apply IH.
Qed.

Lemma most_common1_fmap l :
  most_common1 eqbB (map f l) = option_map f (most_common1 eqbA l).
Proof.
  unfold most_common1, counter.
  change (@nil (B * nat)) with (map (fun p : A * nat => (f (fst p), snd p)) []).
  rewrite counter_fmap.
  destruct (fold_left (counter_add eqbA) l []) as [|x c]; simpl; [reflexivity|].
  rewrite max_first_fmap. reflexivity.
Qed.
End CounterMap.

Lemma py_eqb_refl (v : value) : hashable v = true -> py_eqb v v = true.
Proof.
  destruct v; simpl; intros H; try discriminate; try reflexivity.
  - apply Qeq_bool_refl.
  - apply Qeq_bool_refl.
  - apply Qeq_bool_refl.
  - apply String.eqb_refl.
Qed.

Section DedupCover.
Variable A : Type.
Variable eqb : A -> A -> bool.

Lemma dedup_from_sub l : forall seen y, In y (dedup_from eqb seen l) -> In y l.
Proof.
  induction l as [|a l IH]; intros seen y; simpl; [tauto|].
  destruct (existsb (eqb a) seen); simpl.
  - intros H; right; exact (IH _ _ H).
  - intros [->|H]; [left; reflexivity|right; exact (IH _ _ H)].
Qed.

Lemma dedup_from_cover l : forall seen x,
  In x l -> eqb x x = true ->
  exists y, (In y seen \/ In y (dedup_from eqb seen l)) /\ eqb x y = true.
Proof.
  induction l as [|a l IH]; intros seen x Hx Hxx; [destruct Hx|].
  simpl. destruct (existsb (eqb a) seen) eqn:E.
  - destruct Hx as [->|Hx].
    + apply existsb_exists in E as (y & Hy & Hay). exists y; split; [left|]; assumption.
    + exact (IH seen x Hx Hxx).
  - destruct Hx as [->|Hx].
    + exists x; split; [right; left; reflexivity|exact Hxx].
    + destruct (IH (a :: seen) x Hx Hxx) as (y & [[<-|Hy]|Hy] & Hxy).
      * exists a; split; [right; left; reflexivity|exact Hxy].
      * exists y; split; [left; exact Hy|exact Hxy].
      * exists y; split; [right; right; exact Hy|exact Hxy].
Qed.

Lemma dedup_from_distinct l : forall seen pre y post,
  dedup_from eqb seen l = pre ++ y :: post ->
  forall z, In z pre \/ In z seen -> eqb y z = false.
Proof.
  induction l as [|a l IH]; intros seen pre y post Hd z Hz; simpl in Hd.
  - destruct pre; discriminate.
  - destruct (existsb (eqb a) seen) eqn:E; [exact (IH _ _ _ _ Hd z Hz)|].
    destruct pre as [|b pre].
    + injection Hd as <- _. destruct Hz as [[]|Hz].
      destruct (eqb a z) eqn:Ez; [|reflexivity].
      rewrite <- E. symmetry. apply existsb_exists. exists z; split; assumption.
    + injection Hd as <- Hd. apply (IH _ _ _ _ Hd).
      simpl in Hz |- *. tauto.
Qed.
End DedupCover.

Lemma dict_lookup_in_pair (d : dict) k v : dict_lookup d k = Some v -> In (k, v) d.
Proof.
  induction d as [|[k' v'] d IH]; simpl; [discriminate|].
  destruct (String.eqb_spec k' k) as [->|_]; [intros H; injection H as ->; left; reflexivity|].
  intros H; right; exact (IH H).
Qed.

Lemma field_values_key (results : list dict) k v :
  In v (field_values results k) -> In k (flat_map dict_keys results).
Proof.
  unfold field_values. intros Hv. apply filter_In in Hv as [Hv Hnn].
  apply in_map_iff in Hv as (r & <- & Hr).
  apply in_flat_map. exists r; split; [exact Hr|].
  unfold dict_get in Hnn. destruct (dict_lookup r k) as [v|] eqn:E; [|discriminate].
  apply dict_lookup_in_pair in E. exact (in_map fst _ _ E).
Qed.

Lemma merge_field_values (results : list dict) k :
  merge_field results k
  = match field_values results k with [] => Some VNone | vs => merge_values vs end.
Proof. unfold merge_field, field_values. destruct (filter _ _); reflexivity. Qed.

Lemma merge_extractions_many (r1 r2 : dict) (rs : list dict) :
  merge_extractions (r1 :: r2 :: rs)
  = map_opt (fun k => option_map (pair k) (merge_field (r1 :: r2 :: rs) k))
      (all_keys (r1 :: r2 :: rs)).
Proof. reflexivity. Qed.

Lemma in_all_keys (results : list dict) k :
  In k (all_keys results) <-> In k (flat_map dict_keys results).
Proof.
  unfold all_keys, dedup. rewrite (dedup_from_in string String.eqb String.eqb_eq). simpl; tauto.
Qed.

(** With two or more results, the merged value of every key some result
    has is the merge of that key's values. *)
Lemma merge_lookup (results : list dict) (merged : dict) k :
  merge_extractions results = Some merged -> 2 <= length results ->
  In k (flat_map dict_keys results) ->
  exists v, dict_lookup merged k = Some v /\ merge_field results k = Some v.
Proof.
  destruct results as [|r1 [|r2 rs]]; simpl length; intros Hm Hlen Hk; try lia.
  rewrite merge_extractions_many in Hm.
  apply map_opt_pairs in Hm as [Hkeys Hvals].
  assert (Hin : In k (map fst merged)) by (rewrite Hkeys; apply in_all_keys; exact Hk).
  destruct (dict_lookup_key merged k Hin) as [v Hv].
  exists v; split; [exact Hv|]. apply Hvals, dict_lookup_in_pair, Hv.
Qed.

(** When the first non-null value of a key is a list, a successful merge of
    two or more results stores a list for the key: every item of every list
    value is in it up to Python equality, it holds only items of list
    values, and no two of its items are equal. *)
Theorem merge_list_union (results : list dict) (merged : dict) k
    (l0 : list value) (vs : list value) :
  merge_extractions results = Some merged -> 2 <= length results ->
  field_values results k = VList l0 :: vs ->
  exists out, dict_lookup merged k = Some (VList out) /\
    (forall y, In y out -> exists l, In (VList l) (VList l0 :: vs) /\ In y l) /\
    (forall l x, In (VList l) (VList l0 :: vs) -> In x l ->
       exists y, In y out /\ py_eqb x y = true) /\
    (forall pre y post z, out = pre ++ y :: post -> In z pre -> py_eqb y z = false).
Proof.
  intros Hm Hlen Hfv.
  assert (Hk : In k (flat_map dict_keys results))
    by (apply (field_values_key results k (VList l0)); rewrite Hfv; left; reflexivity).
  destruct (merge_lookup results merged k Hm Hlen Hk) as (v & Hv & Hf).
  rewrite merge_field_values, Hfv in Hf. unfold merge_values in Hf.
  cbn [is_num py_num] in Hf.
  set (items := flat_map (fun v => match v with VList l => l | _ => [] end) (VList l0 :: vs)) in Hf.
  destruct (forallb hashable items) eqn:Eh; [|discriminate].
  injection Hf as <-. exists (dedup py_eqb items). split; [exact Hv|]. split; [|split].
  - intros y Hy. apply dedup_from_sub in Hy. apply in_flat_map in Hy as (w & Hw & Hyw).
    destruct w; try destruct Hyw. exists l; split; assumption.
  - intros l x Hl Hx.
    assert (Hxi : In x items) by (apply in_flat_map; exists (VList l); split; assumption).
    assert (Hxx : py_eqb x x = true)
      by (apply py_eqb_refl; rewrite forallb_forall in Eh; apply Eh, Hxi).
    destruct (dedup_from_cover value py_eqb items [] x Hxi Hxx) as (y & [Hy0|Hy] & Hxy);
      [destruct Hy0|].
    exists y; split; assumption.
  - intros pre y post z Hout Hz.
    exact (dedup_from_distinct value py_eqb items [] pre y post Hout z (or_introl Hz)).
Qed.

Lemma merge_list_union_witness :
  exists merged,
    merge_extractions [ [("parties", VList [VStr "Acme"; VStr "Bob"])];
                        [("parties", VList [VStr "Bob"; VStr "Carol"])] ] = Some merged /\
  exists out, dict_lookup merged "parties" = Some (VList out) /\
    (forall y, In y out -> exists l, In (VList l) [VList [VStr "Acme"; VStr "Bob"]; VList [VStr "Bob"; VStr "Carol"]] /\ In y l) /\
    (forall l x, In (VList l) [VList [VStr "Acme"; VStr "Bob"]; VList [VStr "Bob"; VStr "Carol"]] -> In x l ->
       exists y, In y out /\ py_eqb x y = true) /\
    (forall pre y post z, out = pre ++ y :: post -> In z pre -> py_eqb y z = false).
Proof.
  eexists; split; [reflexivity|].
  apply (merge_list_union [ [("parties", VList [VStr "Acme"; VStr "Bob"])];
                        [("parties", VList [VStr "Bob"; VStr "Carol"])] ] _ "parties" [VStr "Acme"; VStr "Bob"] [VList [VStr "Bob"; VStr "Carol"]]);
    [reflexivity|simpl; lia|reflexivity].
Defined.

Lemma cnt_fmap {A B} (eqbA : A -> A -> bool) (eqbB : B -> B -> bool) (f : A -> B)
    (f_eqb : forall x y, eqbB (f x) (f y) = eqbA x y) a l :
  cnt eqbB (f a) (map f l) = cnt eqbA a l.
Proof. induction l as [|b l IH]; simpl; [reflexivity|]. rewrite f_eqb, IH; reflexivity. Qed.

(** When all non-null values of a key are strings, a merge of two or more
    results stores the most frequent string; among equally frequent strings
    the one met first wins. *)
Theorem merge_text_plurality (results : list dict) (merged : dict) k (ss : list string) :
  merge_extractions results = Some merged -> 2 <= length results ->
  field_values results k = map VStr ss -> ss <> [] ->
  exists m, dict_lookup merged k = Some (VStr m) /\ In m ss /\
    (forall s, cnt String.eqb s ss <= cnt String.eqb m ss) /\
    (forall pre post, ss = pre ++ m :: post -> ~ In m pre ->
       forall s, In s pre -> cnt String.eqb s ss < cnt String.eqb m ss).
Proof.
  intros Hm Hlen Hfv Hne. destruct ss as [|s0 ss']; [contradiction|].
  assert (Hk : In k (flat_map dict_keys results))
    by (apply (field_values_key results k (VStr s0)); rewrite Hfv; left; reflexivity).
  destruct (merge_lookup results merged k Hm Hlen Hk) as (v & Hv & Hf).
  rewrite merge_field_values, Hfv in Hf. cbn [map] in Hf. unfold merge_values in Hf.
  cbn [is_num py_num] in Hf.
  rewrite <- (map_cons VStr s0 ss') in Hf.
  replace (forallb hashable (map VStr (s0 :: ss'))) with true in Hf
    by (symmetry; apply forallb_forall; intros w Hw; apply in_map_iff in Hw as (x & <- & _); reflexivity).
  rewrite (most_common1_fmap string value String.eqb py_eqb VStr (fun x y => eq_refl)) in Hf.
  destruct (most_common1_spec string String.eqb String.eqb_eq (s0 :: ss'))
    as (m & Em & Hin & Hmax & Htie); [discriminate|].
  rewrite Em in Hf. injection Hf as <-.
  exists m; split; [exact Hv|]. split; [exact Hin|]. split; [exact Hmax|exact Htie].
Qed.

Lemma merge_text_plurality_witness :
  exists merged,
    merge_extractions [ [("currency", VStr "EUR")]; [("currency", VStr "USD")];
                        [("currency", VStr "USD")] ] = Some merged /\
  exists m, dict_lookup merged "currency" = Some (VStr m) /\ In m ["EUR"; "USD"; "USD"] /\
    (forall s, cnt String.eqb s ["EUR"; "USD"; "USD"] <= cnt String.eqb m ["EUR"; "USD"; "USD"]) /\
    (forall pre post, ["EUR"; "USD"; "USD"] = pre ++ m :: post -> ~ In m pre ->
       forall s, In s pre -> cnt String.eqb s ["EUR"; "USD"; "USD"] < cnt String.eqb m ["EUR"; "USD"; "USD"]).
Proof.
  eexists; split; [reflexivity|].
  apply (merge_text_plurality [ [("currency", VStr "EUR")]; [("currency", VStr "USD")];
                        [("currency", VStr "USD")] ] _ "currency" ["EUR"; "USD"; "USD"]);
    [reflexivity|simpl; lia|reflexivity|discriminate].
Defined.

(** When the first non-null value of a key is a nested dict, a merge of two
    or more results keeps that dict as it is and ignores the other values. *)
Theorem merge_dict_keeps_first (results : list dict) (merged : dict) k
    (d : dict) (vs : list value) :
  merge_extractions results = Some merged -> 2 <= length results ->
  field_values results k = VDict d :: vs ->
  dict_lookup merged k = Some (VDict d).
Proof.
  intros Hm Hlen Hfv.
  assert (Hk : In k (flat_map dict_keys results))
    by (apply (field_values_key results k (VDict d)); rewrite Hfv; left; reflexivity).
  destruct (merge_lookup results merged k Hm Hlen Hk) as (v & Hv & Hf).
  rewrite merge_field_values, Hfv in Hf. simpl in Hf. injection Hf as <-. exact Hv.
Qed.

Lemma merge_dict_keeps_first_witness :
  exists merged,
    merge_extractions [ [("vendor", VDict [("name", VStr "Acme")])];
                        [("vendor", VDict [("name", VStr "ACME Corp")])] ] = Some merged /\
    dict_lookup merged "vendor" = Some (VDict [("name", VStr "Acme")]).
Proof.
  eexists; split; [reflexivity|].
  apply (merge_dict_keeps_first [ [("vendor", VDict [("name", VStr "Acme")])];
                        [("vendor", VDict [("name", VStr "ACME Corp")])] ] _ "vendor" [("name", VStr "Acme")] [VDict [("name", VStr "ACME Corp")]]);
    [reflexivity|simpl; lia|reflexivity].
Defined.

(** ** JSON span *)

Lemma get_lt (s : string) : forall n c, get n s = Some c -> n < String.length s.
Proof.
  induction s as [|a s IH]; intros n c H; [discriminate|].
  destruct n as [|n]; simpl; [lia|]. apply IH in H. lia.
Qed.

Lemma str_find_first (c : ascii) (s : string) : forall i,
  get i s = Some c -> (forall k, k < i -> get k s <> Some c) ->
  str_find c s = Z.of_nat i.
Proof.
  induction s as [|a s IH]; intros i Hi Hk; [destruct i; discriminate|].
  destruct i as [|i]; simpl in Hi |- *.
  - injection Hi as ->. rewrite Ascii.eqb_refl. reflexivity.
  - destruct (Ascii.eqb_spec a c) as [->|Hne].
    + exfalso. apply (Hk 0); [lia|reflexivity].
    + rewrite (IH i Hi) by (intros k Hk'; apply (Hk (S k)); lia).
      destruct (Z.ltb_spec (Z.of_nat i) 0); lia.
Qed.

Lemma str_find_none (c : ascii) (s : string) :
  (forall k, get k s <> Some c) -> str_find c s = (-1)%Z.
Proof.
  induction s as [|a s IH]; intros Hk; [reflexivity|]. simpl.
  destruct (Ascii.eqb_spec a c) as [->|Hne]; [exfalso; apply (Hk 0); reflexivity|].
  rewrite IH by (intros k; apply (Hk (S k))). reflexivity.
Qed.

Lemma str_rfind_none (c : ascii) (s : string) :
  (forall k, get k s <> Some c) -> str_rfind c s = (-1)%Z.
Proof.
  induction s as [|a s IH]; intros Hk; [reflexivity|]. simpl.
  rewrite IH by (intros k; apply (Hk (S k))). simpl.
  destruct (Ascii.eqb_spec a c) as [->|Hne]; [exfalso; apply (Hk 0); reflexivity|reflexivity].
Qed.

Lemma str_rfind_last (c : ascii) (s : string) : forall j,
  get j s = Some c -> (forall k, j < k -> get k s <> Some c) ->
  str_rfind c s = Z.of_nat j.
Proof.
  induction s as [|a s IH]; intros j Hj Hk; [destruct j; discriminate|].
  destruct j as [|j]; simpl in Hj |- *.
  - injection Hj as ->. rewrite str_rfind_none by (intros k; apply (Hk (S k)); lia).
    simpl. rewrite Ascii.eqb_refl. reflexivity.
  - rewrite (IH j Hj) by (intros k Hk'; apply (Hk (S k)); lia).
    destruct (Z.leb_spec 0 (Z.of_nat j)); lia.
Qed.

Lemma str_rfind_cases (c : ascii) (s : string) :
  str_rfind c s = (-1)%Z \/ exists j, str_rfind c s = Z.of_nat j /\ get j s = Some c.
Proof.
  induction s as [|a s IH]; [left; reflexivity|]. simpl.
  destruct IH as [->|(j & -> & Hj)]; simpl.
  - destruct (Ascii.eqb_spec a c) as [->|_]; [right; exists 0; split; reflexivity|left; reflexivity].
  - destruct (Z.leb_spec 0 (Z.of_nat j)); [|lia].
    right; exists (S j); split; [lia|exact Hj].
Qed.

Lemma str_rfind_below (c : ascii) (s : string) (i : nat) :
  (forall k, i <= k -> get k s <> Some c) ->
  str_rfind c s = (-1)%Z \/ exists j, str_rfind c s = Z.of_nat j /\ j < i.
Proof.
  intros Hk. destruct (str_rfind_cases c s) as [H|(j & H & Hj)]; [left; exact H|].
  right; exists j; split; [exact H|]. destruct (Nat.lt_ge_cases j i) as [|Hge]; [assumption|].
  exfalso; exact (Hk j Hge Hj).
Qed.

Lemma py_slice_index_nat (n len : nat) : py_slice_index (Z.of_nat n) len = Nat.min n len.
Proof.
  unfold py_slice_index. destruct (Z.ltb_spec (Z.of_nat n) 0); [lia|].
  rewrite Nat2Z.id; reflexivity.
Qed.

Lemma py_slice_index_minus_one (len : nat) : py_slice_index (-1)%Z len = len - 1.
Proof.
  unfold py_slice_index. destruct (Z.ltb_spec (-1) 0) as [_|H]; [|lia].
  destruct len as [|len]; [reflexivity|].
  replace (-1 + Z.of_nat (S len))%Z with (Z.of_nat len) by lia.
  rewrite Nat2Z.id. lia.
Qed.

Lemma substring_zero (s : string) : forall n, substring n 0 s = EmptyString.
Proof. induction s as [|a s IH]; intros [|n]; simpl; auto. Qed.

Lemma substring_one (s : string) : forall n c,
  get n s = Some c -> substring n 1 s = String c EmptyString.
Proof.
  induction s as [|a s IH]; intros n c H; [destruct n; discriminate|].
  destruct n as [|n]; simpl in H |- *; [injection H as ->; rewrite substring_zero; reflexivity|].
  exact (IH n c H).
Qed.

Lemma substring_all (s : string) : substring 0 (String.length s) s = s.
Proof. induction s as [|a s IH]; simpl; [reflexivity|]. rewrite IH; reflexivity. Qed.

Lemma json_span_between (text : string) (i j : nat) :
  get i text = Some "{"%char -> (forall k, k < i -> get k text <> Some "{"%char) ->
  get j text = Some "}"%char -> (forall k, j < k -> get k text <> Some "}"%char) ->
  i <= j -> json_span text = substring i (S j - i) text.
Proof.
  intros Hi Hfirst Hj Hlast Hij. unfold json_span.
  rewrite (str_find_first _ _ i Hi Hfirst), (str_rfind_last _ _ j Hj Hlast).
  pose proof (get_lt _ _ _ Hj) as Hjl.
  replace (Z.of_nat j + 1)%Z with (Z.of_nat (S j)) by lia.
  unfold py_slice. rewrite !py_slice_index_nat, Nat.min_l, Nat.min_l by lia. reflexivity.
Qed.

(** On the Gemini and Ollama paths, when a reply's first '{' comes no
    later than its last '}', the text parsed as JSON is exactly the reply
    from that '{' through that '}'; leading and trailing chatter is cut
    off. *)
Theorem json_span_object (text : string) (i j : nat) :
  get i text = Some "{"%char -> (forall k, k < i -> get k text <> Some "{"%char) ->
  get j text = Some "}"%char -> (forall k, j < k -> get k text <> Some "}"%char) ->
  i <= j -> json_span text = substring i (S j - i) text.
Proof. exact (json_span_between text i j). Qed.

Lemma json_span_object_witness :
  json_span "Reply: {x} ok" = substring 7 3 "Reply: {x} ok".
Proof.
  apply (json_span_object "Reply: {x} ok" 7 9); try reflexivity; try lia.
  - intros k Hk. do 7 (destruct k as [|k]; [discriminate|]). lia.
  - intros k Hk. do 10 (destruct k as [|k]; [lia|]).
    do 3 (destruct k as [|k]; [discriminate|]). destruct k; discriminate.
Defined.

(** A reply that is exactly one JSON object text (it starts with '{' and
    ends with '}') is parsed as it is. *)
Theorem json_span_whole (text : string) :
  get 0 text = Some "{"%char -> get (String.length text - 1) text = Some "}"%char ->
  json_span text = text.
Proof.
  intros H0 Hl. pose proof (get_lt _ _ _ H0) as Hlen.
  rewrite (json_span_between text 0 (String.length text - 1)); try assumption.
  - replace (S (String.length text - 1) - 0) with (String.length text) by lia.
    apply substring_all.
  - intros k Hk; lia.
  - intros k Hk Hg. apply get_lt in Hg. lia.
  - lia.
Qed.

Lemma json_span_whole_witness : json_span "{x}" = "{x}".
Proof. apply json_span_whole; reflexivity. Defined.

(** On the Gemini and Ollama paths, a reply without any '}' gives the
    empty string to [json.loads], which raises: the call fails. *)
Theorem json_span_no_close (text : string) :
  (forall k, get k text <> Some "}"%char) -> json_span text = EmptyString.
Proof.
  intros Hn. unfold json_span, py_slice.
  rewrite (str_rfind_none _ _ Hn). simpl (-1 + 1)%Z.
  change 0%Z with (Z.of_nat 0). rewrite py_slice_index_nat. simpl Nat.min.
  apply substring_zero.
Qed.

Lemma json_span_no_close_witness : json_span "{x" = EmptyString.
Proof.
  apply json_span_no_close. intros k. do 2 (destruct k as [|k]; [discriminate|]).
  destruct k; discriminate.
Defined.

(** On the Gemini and Ollama paths, when no '}' occurs at or after the
    first '{' (e.g. "} {"), the span handed to [json.loads] is empty. *)
Theorem json_span_close_before_open (text : string) (i : nat) :
  get i text = Some "{"%char -> (forall k, k < i -> get k text <> Some "{"%char) ->
  (forall k, i <= k -> get k text <> Some "}"%char) ->
  json_span text = EmptyString.
Proof.
  intros Hi Hfirst Hafter. unfold json_span, py_slice.
  rewrite (str_find_first _ _ i Hi Hfirst), py_slice_index_nat.
  destruct (str_rfind_below "}"%char text i Hafter) as [->|(j & -> & Hj)].
  - simpl (-1 + 1)%Z. change 0%Z with (Z.of_nat 0). rewrite py_slice_index_nat.
    simpl Nat.min. apply substring_zero.
  - replace (Z.of_nat j + 1)%Z with (Z.of_nat (S j)) by lia.
    rewrite py_slice_index_nat.
    replace (Nat.min (S j) (String.length text) - Nat.min i (String.length text)) with 0 by lia.
    apply substring_zero.
Qed.

Lemma json_span_close_before_open_witness : json_span "} {" = EmptyString.
Proof.
  apply (json_span_close_before_open "} {" 2); [reflexivity| |].
  - intros k Hk. do 2 (destruct k as [|k]; [discriminate|]). lia.
  - intros k Hk. do 2 (destruct k as [|k]; [lia|]). do 2 (destruct k as [|k]; [discriminate|]).
    destruct k; discriminate.
Defined.

(** On the Gemini and Ollama paths, a reply without any '{' never yields
    an object text: the span is empty, or the single character '}' when
    the reply ends with one. *)
Theorem json_span_no_open (text : string) :
  (forall k, get k text <> Some "{"%char) ->
  json_span text = EmptyString \/ json_span text = String "}" EmptyString.
Proof.
  intros Hn. unfold json_span, py_slice.
  rewrite (str_find_none _ _ Hn), py_slice_index_minus_one.
  destruct (str_rfind_cases "}"%char text) as [->|(j & -> & Hj)].
  - left. simpl (-1 + 1)%Z. change 0%Z with (Z.of_nat 0). rewrite py_slice_index_nat.
    simpl Nat.min. apply substring_zero.
  - pose proof (get_lt _ _ _ Hj) as Hjl.
    replace (Z.of_nat j + 1)%Z with (Z.of_nat (S j)) by lia.
    rewrite py_slice_index_nat, Nat.min_l by lia.
    destruct (Nat.eq_dec j (String.length text - 1)) as [->|Hne].
    + right. replace (S (String.length text - 1) - (String.length text - 1)) with 1 by lia.
      apply substring_one; exact Hj.
    + left. replace (S j - (String.length text - 1)) with 0 by lia. apply substring_zero.
Qed.

Lemma json_span_no_open_witness :
  json_span "none}" = EmptyString \/ json_span "none}" = String "}" EmptyString.
Proof.
  apply json_span_no_open. intros k. do 5 (destruct k as [|k]; [discriminate|]).
  destruct k; discriminate.
Defined.

(** ** Flattening flat records *)

Lemma flatten_value_leaf json_dumps (v : value) key sep :
  flat_leaf v -> flatten_value json_dumps v key sep = [(key, v)].
Proof.
  intros [Hd Hl]. destruct v; try reflexivity.
  - exfalso; exact (Hl l eq_refl).
  - exfalso; exact (Hd d eq_refl).
Qed.

Lemma flat_items_root json_dumps sep (d : dict) :
  Forall (fun kv => flat_leaf (snd kv)) d -> flat_items json_dumps "" sep d = d.
Proof.
  induction 1 as [|[k v] d Hv _ IH]; simpl; [reflexivity|].
  rewrite flatten_value_leaf by exact Hv. simpl. rewrite IH. reflexivity.
Qed.

Lemma dict_setitem_fresh (d : dict) k v :
  ~ In k (map fst d) -> dict_setitem d k v = d ++ [(k, v)].
Proof.
  induction d as [|[k' v'] d IH]; simpl; intros Hn; [reflexivity|].
  destruct (String.eqb_spec k' k) as [->|_]; [exfalso; apply Hn; left; reflexivity|].
  rewrite IH by (intros H; apply Hn; right; exact H). reflexivity.
Qed.

Lemma fold_setitem_fresh (items : list (string * value)) : forall acc,
  NoDup (map fst (acc ++ items)) -> fold_left setitem_step items acc = acc ++ items.
Proof.
  induction items as [|[k v] items IH]; intros acc Hnd; simpl; [rewrite app_nil_r; reflexivity|].
  rewrite map_app in Hnd; simpl in Hnd.
  pose proof (NoDup_remove_2 _ _ _ Hnd) as Hn.
  rewrite dict_setitem_fresh by (intros H; apply Hn, in_or_app; left; exact H).
  rewrite IH; [rewrite <- app_assoc; reflexivity|].
  rewrite <- app_assoc, map_app. simpl. exact Hnd.
Qed.

Lemma flatten_flat_id json_dumps sep (d : dict) :
  NoDup (map fst d) -> Forall (fun kv => flat_leaf (snd kv)) d ->
  flatten_dict json_dumps d "" sep = d.
Proof.
  intros Hnd Hflat. unfold flatten_dict. rewrite flatten_value_dict, flat_items_root by exact Hflat.
  unfold dict_of_items. rewrite dict_of_items_fold, fold_setitem_fresh by exact Hnd. reflexivity.
Qed.

(** Flattening a record whose values are neither dicts nor lists, with the
    default empty parent key, returns it unchanged (keys and order). *)
Theorem flatten_dict_flat_identity (json_dumps : list value -> string) (d : dict) (sep : string) :
  NoDup (dict_keys d) -> (forall k x, In (k, x) d -> flat_leaf x) ->
  flatten_dict json_dumps d "" sep = d.
Proof.
  intros Hnd Hflat. apply flatten_flat_id; [exact Hnd|].
  apply Forall_forall. intros [k x] Hin. exact (Hflat k x Hin).
Qed.

Lemma flatten_dict_flat_identity_witness :
  flatten_dict dumps_len [("invoice_number", VStr "INV-1"); ("total_amount", VFloat (99#1))] "" "_"
  = [("invoice_number", VStr "INV-1"); ("total_amount", VFloat (99#1))].
Proof.
  apply flatten_dict_flat_identity.
  - repeat constructor; simpl; intuition discriminate.
  - intros k x [H|[H|[]]]; injection H as _ <-; split; intros ? ?; discriminate.
Defined.

(** Flattening twice (with the default empty parent key) gives the same
    record as flattening once. *)
Theorem flatten_dict_idempotent (json_dumps : list value -> string) (d : dict) (sep : string) :
  flatten_dict json_dumps (flatten_dict json_dumps d "" sep) "" sep
  = flatten_dict json_dumps d "" sep.
Proof.
  apply flatten_flat_id.
  - unfold flatten_dict. rewrite flatten_value_dict. unfold dict_of_items.
    rewrite dict_of_items_fold. apply fold_setitem_nodup. constructor.
  - apply Forall_forall. intros [k x] Hin.
    exact (proj1 (flatten_value_ok json_dumps sep (VDict d) "") k x Hin).
Qed.

(** ** Saving documents as JSON files *)

Lemma save_docs_lookup py_str (docs : list dict) : forall files fs,
  save_docs py_str files docs = (fs, true) ->
  forall fn, dict_lookup fs fn
    = match last_named py_str fn docs with
      | Some d => Some (VDict d)
      | None => dict_lookup files fn
      end.
Proof.
  induction docs as [|d ds IH]; intros files fs Hs fn; simpl in Hs |- *.
  - injection Hs as <-. reflexivity.
  - destruct (doc_filename py_str d) as [n|] eqn:En; [|discriminate].
    rewrite (IH _ _ Hs fn), dict_lookup_setitem.
    destruct (last_named py_str fn ds); [reflexivity|].
    destruct (String.eqb n fn); reflexivity.
Qed.

Lemma last_named_none py_str fn (docs : list dict) :
  last_named py_str fn docs = None <-> forall d', In d' docs -> doc_filename py_str d' <> Some fn.
Proof.
  induction docs as [|d ds IH]; simpl; [split; [intros _ _ []|reflexivity]|].
  destruct (last_named py_str fn ds) as [d0|] eqn:E.
  - split; [discriminate|]. intros H.
    assert (Hn : Some d0 = None) by (apply IH; intros d' Hd'; apply H; right; exact Hd').
    discriminate.
  - destruct (doc_filename py_str d) as [n|] eqn:En.
    + destruct (String.eqb_spec n fn) as [->|Hne].
      * split; [discriminate|]. intros H. exfalso. exact (H d (or_introl eq_refl) En).
      * split; [|reflexivity]. intros _ d' [<-|Hd'].
        -- rewrite En; congruence.
        -- apply IH; [reflexivity|exact Hd'].
    + split; [|reflexivity]. intros _ d' [<-|Hd'].
      * rewrite En; discriminate.
      * apply IH; [reflexivity|exact Hd'].
Qed.

Lemma last_named_app py_str fn (a b : list dict) :
  last_named py_str fn (a ++ b)
  = match last_named py_str fn b with Some d => Some d | None => last_named py_str fn a end.
Proof.
  induction a as [|d a IH]; simpl.
  - destruct (last_named py_str fn b); reflexivity.
  - rewrite IH. destruct (last_named py_str fn b); reflexivity.
Qed.

Lemma last_named_some py_str fn (docs : list dict) d :
  last_named py_str fn docs = Some d <->
  exists pre post, docs = pre ++ d :: post /\ doc_filename py_str d = Some fn /\
    (forall d', In d' post -> doc_filename py_str d' <> Some fn).
Proof.
  split.
  - induction docs as [|d0 ds IH]; simpl; [discriminate|].
    destruct (last_named py_str fn ds) as [d1|] eqn:E.
    + intros H; injection H as <-. destruct (IH eq_refl) as (pre & post & -> & Hn & Hp).
      exists (d0 :: pre), post; split; [reflexivity|split; assumption].
    + destruct (doc_filename py_str d0) as [n|] eqn:En; [|discriminate].
      destruct (String.eqb_spec n fn) as [->|_]; [|discriminate].
      intros H; injection H as <-. exists [], ds. split; [reflexivity|split; [exact En|]].
      apply last_named_none, E.
  - intros (pre & post & -> & Hn & Hp). rewrite last_named_app. simpl.
    rewrite (proj2 (last_named_none py_str fn post) Hp), Hn, String.eqb_refl. reflexivity.
Qed.

Lemma last_named_in py_str fn (docs : list dict) d :
  last_named py_str fn docs = Some d -> In d docs.
Proof.
  intros H. apply last_named_some in H as (pre & post & -> & _).
  apply in_or_app; right; left; reflexivity.
Qed.

(** After a complete run of [save_to_json], the file named [fn] holds the
    last document of the list whose file name is [fn]; a file no document
    is named for keeps its former content. *)
Theorem save_to_json_last_writer (py_str : value -> string) (docs : list dict) (files fs : dict) :
  save_to_json py_str docs files = (fs, true) ->
  forall fn d, dict_lookup fs fn = Some (VDict d) <->
    (exists pre post, docs = pre ++ d :: post /\ doc_filename py_str d = Some fn /\
       (forall d', In d' post -> doc_filename py_str d' <> Some fn)) \/
    (dict_lookup files fn = Some (VDict d) /\
       forall d', In d' docs -> doc_filename py_str d' <> Some fn).
Proof.
  unfold save_to_json. intros Hs fn d. rewrite (save_docs_lookup py_str docs files fs Hs fn).
  destruct (last_named py_str fn docs) as [d0|] eqn:E.
  - split.
    + intros H; injection H as <-. left. apply last_named_some, E.
    + intros [H|[_ H]].
      * apply last_named_some in H. congruence.
      * apply last_named_none in H. congruence.
  - split.
    + intros H. right. split; [exact H|]. apply last_named_none, E.
    + intros [H|[H _]]; [|exact H].
      apply last_named_some in H. congruence.
Qed.

Lemma save_to_json_last_writer_witness :
  exists fs,
    save_to_json (fun _ => "")
      [ [("document_id", VStr "a1b2c3d4-0001"); ("document_type", VStr "invoice")];
        [("document_id", VStr "e5f6a7b8-0002"); ("document_type", VStr "email")];
        [("document_id", VStr "a1b2c3d4-0003"); ("document_type", VStr "invoice")] ]
      [("report.json", VDict [("kept", VBool true)]);
       ("invoice_a1b2c3d4.json", VDict [("old", VBool true)])]
    = (fs, true) /\
    dict_lookup fs "invoice_a1b2c3d4.json"
      = Some (VDict [("document_id", VStr "a1b2c3d4-0003"); ("document_type", VStr "invoice")]) /\
    dict_lookup fs "email_e5f6a7b8.json"
      = Some (VDict [("document_id", VStr "e5f6a7b8-0002"); ("document_type", VStr "email")]) /\
    dict_lookup fs "report.json" = Some (VDict [("kept", VBool true)]).
Proof.
  eexists; split; [reflexivity|]. split; [|split].
  - apply (proj2 (save_to_json_last_writer (fun _ => "")
      [ [("document_id", VStr "a1b2c3d4-0001"); ("document_type", VStr "invoice")];
        [("document_id", VStr "e5f6a7b8-0002"); ("document_type", VStr "email")];
        [("document_id", VStr "a1b2c3d4-0003"); ("document_type", VStr "invoice")] ]
      [("report.json", VDict [("kept", VBool true)]);
       ("invoice_a1b2c3d4.json", VDict [("old", VBool true)])] _ eq_refl
      "invoice_a1b2c3d4.json"
      [("document_id", VStr "a1b2c3d4-0003"); ("document_type", VStr "invoice")])).
    left. exists [ [("document_id", VStr "a1b2c3d4-0001"); ("document_type", VStr "invoice")];
                   [("document_id", VStr "e5f6a7b8-0002"); ("document_type", VStr "email")] ], [].
    split; [reflexivity|]. split; [reflexivity|]. intros d' [].
  - apply (proj2 (save_to_json_last_writer (fun _ => "")
      [ [("document_id", VStr "a1b2c3d4-0001"); ("document_type", VStr "invoice")];
        [("document_id", VStr "e5f6a7b8-0002"); ("document_type", VStr "email")];
        [("document_id", VStr "a1b2c3d4-0003"); ("document_type", VStr "invoice")] ]
      [("report.json", VDict [("kept", VBool true)]);
       ("invoice_a1b2c3d4.json", VDict [("old", VBool true)])] _ eq_refl
      "email_e5f6a7b8.json"
      [("document_id", VStr "e5f6a7b8-0002"); ("document_type", VStr "email")])).
    left. exists [ [("document_id", VStr "a1b2c3d4-0001"); ("document_type", VStr "invoice")] ],
                 [ [("document_id", VStr "a1b2c3d4-0003"); ("document_type", VStr "invoice")] ].
    split; [reflexivity|]. split; [reflexivity|].
    intros d' [<-|[]]. discriminate.
  - apply (proj2 (save_to_json_last_writer (fun _ => "")
      [ [("document_id", VStr "a1b2c3d4-0001"); ("document_type", VStr "invoice")];
        [("document_id", VStr "e5f6a7b8-0002"); ("document_type", VStr "email")];
        [("document_id", VStr "a1b2c3d4-0003"); ("document_type", VStr "invoice")] ]
      [("report.json", VDict [("kept", VBool true)]);
       ("invoice_a1b2c3d4.json", VDict [("old", VBool true)])] _ eq_refl
      "report.json" [("kept", VBool true)])).
    right. split; [reflexivity|].
    intros d' [<-|[<-|[<-|[]]]]; discriminate.
Defined.

(** Two documents of the same type whose string ids agree on their first 8
    characters get the same file name: after a complete run, the file named
    for the earlier one holds a document listed after it. *)
Theorem save_to_json_id_prefix_collision (py_str : value -> string)
    (pre mid post : list dict) (d1 d2 : dict) (files fs : dict) (i1 i2 : string) :
  save_to_json py_str (pre ++ d1 :: mid ++ d2 :: post) files = (fs, true) ->
  dict_get_default d1 "document_type" (VStr "unknown")
    = dict_get_default d2 "document_type" (VStr "unknown") ->
  dict_get_default d1 "document_id" (VStr "unknown") = VStr i1 ->
  dict_get_default d2 "document_id" (VStr "unknown") = VStr i2 ->
  substring 0 8 i1 = substring 0 8 i2 ->
  forall fn, doc_filename py_str d1 = Some fn ->
  exists d', In d' (mid ++ d2 :: post) /\ dict_lookup fs fn = Some (VDict d').
Proof.
  unfold save_to_json. intros Hs Ht H1 H2 H8 fn Hfn.
  assert (Hfn2 : doc_filename py_str d2 = Some fn).
  { rewrite <- Hfn. unfold doc_filename. rewrite Ht, H1, H2. simpl. rewrite H8. reflexivity. }
  rewrite (save_docs_lookup py_str _ files fs Hs fn).
  change (pre ++ d1 :: mid ++ d2 :: post) with (pre ++ [d1] ++ (mid ++ d2 :: post)).
  rewrite last_named_app, (last_named_app py_str fn [d1]).
  destruct (last_named py_str fn (mid ++ d2 :: post)) as [d'|] eqn:E.
  - exists d'. split; [exact (last_named_in _ _ _ _ E)|reflexivity].
  - exfalso. apply last_named_none with (d' := d2) in E; [exact (E Hfn2)|].
    apply in_or_app; right; left; reflexivity.
Qed.

Lemma save_to_json_id_prefix_collision_witness :
  exists fs,
    save_to_json (fun _ => "")
      [ [("document_id", VStr "a1b2c3d4-0001"); ("document_type", VStr "invoice")];
        [("document_id", VStr "a1b2c3d4-0002"); ("document_type", VStr "invoice")] ] []
    = (fs, true) /\
    exists d', In d' [ [("document_id", VStr "a1b2c3d4-0002"); ("document_type", VStr "invoice")] ] /\
      dict_lookup fs "invoice_a1b2c3d4.json" = Some (VDict d').
Proof.
  eexists; split; [reflexivity|].
  apply (save_to_json_id_prefix_collision (fun _ => "") [] [] []
           [("document_id", VStr "a1b2c3d4-0001"); ("document_type", VStr "invoice")]
           [("document_id", VStr "a1b2c3d4-0002"); ("document_type", VStr "invoice")]
           [] _ "a1b2c3d4-0001" "a1b2c3d4-0002"); reflexivity.
Defined.
